(** * Finding-aid conversion: a shallow embedding and its properties

    The development follows the notebook "Convert a HTML finding aid to
    JSON": the functions that scrape the hierarchy of series, sub-series
    and items from a parsed HTML page ([extract_node_details],
    [get_children], [get_text], ...), the summary extraction
    ([get_fa_summary], [get_fa_details], [convert_finding_aid]) and the
    two flattened views ([find_leaves], [get_paths]).

    The parsed page (the [BeautifulSoup] object) is the input of the
    model: a tree of tags and strings.  Python exceptions are values of an
    outcome type, Python lists that are mutated in place live in a store.

    The last part follows the two harvesting notebooks: the links to
    finding aids ([get_fa_link] and the loop of its [harvest]) and the
    works that enter the public domain ([get_latest_year],
    [check_creators], [check_date] and the loop of its [harvest]).  The
    years and the identifier of a finding aid are searched over the code
    points of a text, with the Unicode character database as a
    parameter. *)

From Stdlib Require Import String Ascii List Arith NArith Lia Bool.
From Stdlib Require Import DecimalString DecimalNat.
From stdpp Require Import base option list strings gmap.

Import ListNotations.
Set Warnings "-register-all".
Local Open Scope string_scope.
Local Open Scope list_scope.

(** ** Outcomes of Python code *)

Inductive exn :=
| KeyError (key : string)      (* d[key] on a missing key *)
| AttributeError               (* attribute access on None *)
| IndexError.                  (* pop from an empty list *)

(** [OutOfFuel] is only the artefact of writing the recursive descent of
    the extraction with a step bound; [extract_total] shows the bound
    chosen at the entry points is never reached. *)
Inductive outcome (A : Type) :=
| Returns (a : A)
| Raises (e : exn)
| OutOfFuel.
Arguments Returns {A} a.
Arguments Raises {A} e.
Arguments OutOfFuel {A}.

#[global] Instance outcome_ret : MRet outcome := fun A a => Returns a.
#[global] Instance outcome_bind : MBind outcome := fun A B k m =>
  match m with
  | Returns a => k a
  | Raises e => Raises e
  | OutOfFuel => OutOfFuel
  end.

(** [for x in xs: acc.append(f(x))] *)
Fixpoint for_append {A B} (f : A -> outcome B) (xs : list A) : outcome (list B) :=
  match xs with
  | [] => Returns []
  | x :: r => y ← f x; ys ← for_append f r; Returns (y :: ys)
  end.

(** ** Python string operations *)

Module PyStr.

Definition nl : string := String (ascii_of_nat 10) EmptyString.

(** A string is the sequence of the bytes of a text.  [str.isspace] on
    the ASCII range: TAB..CR, FS..US and the blank.  White space outside
    of ASCII (the no-break space and the like) is not known here, so that
    [strip] below is [str.strip] on the texts that have none at their
    ends, the ASCII texts among them. *)
Definition isspace (c : ascii) : bool :=
  let n := nat_of_ascii c in
  (Nat.leb 9 n && Nat.leb n 13) || (Nat.leb 28 n && Nat.leb n 32).

Fixpoint lstrip (s : string) : string :=
  match s with
  | String c r => if isspace c then lstrip r else s
  | EmptyString => EmptyString
  end.

Fixpoint rev_acc (s acc : string) : string :=
  match s with
  | EmptyString => acc
  | String c r => rev_acc r (String c acc)
  end.

Definition rev (s : string) : string := rev_acc s EmptyString.

Definition rstrip (s : string) : string := rev (lstrip (rev s)).

(** [s.strip()] *)
Definition strip (s : string) : string := rstrip (lstrip s).

Definition lower_char (c : ascii) : ascii :=
  let n := nat_of_ascii c in
  if Nat.leb 65 n && Nat.leb n 90 then ascii_of_nat (n + 32) else c.

Fixpoint map_chars (f : ascii -> ascii) (s : string) : string :=
  match s with
  | EmptyString => EmptyString
  | String c r => String (f c) (map_chars f r)
  end.

(** [s.lower()] on the letters A to Z; a byte outside of ASCII is left
    as it is. *)
Definition lower (s : string) : string := map_chars lower_char s.

(** [s.replace(" ", "_")] *)
Definition replace_blank (s : string) : string :=
  map_chars (fun c => if Ascii.eqb c " "%char then "_"%char else c) s.

(** [sep.join(l)] *)
Definition join (sep : string) (l : list string) : string := String.concat sep l.

(** [str(x)] for [x] a string or [None] *)
Definition str_opt (o : option string) : string :=
  match o with
  | Some s => s
  | None => "None"
  end.

(** [f"{n}"] for a non-negative integer *)
Definition decimal (n : nat) : string := NilEmpty.string_of_uint (Nat.to_uint n).

(** the inverse reading, used only to bound the depth of the descent *)
Definition read_decimal (s : string) : option nat :=
  match NilEmpty.uint_of_string s with
  | Some d => Some (Nat.of_uint d)
  | None => None
  end.

Fixpoint strip_prefix (p s : string) : option string :=
  match p, s with
  | EmptyString, _ => Some s
  | String a p', String b s' => if Ascii.eqb a b then strip_prefix p' s' else None
  | String _ _, EmptyString => None
  end.

End PyStr.

(** ** The parsed document *)

(** A [Tag] as BeautifulSoup's HTML tree builders make it: [class] is a
    multi-valued attribute, kept as the list of its tokens ([None] when the
    attribute is absent); every other attribute is a string.  [attrs] is
    the dictionary of the other attributes, read by first match.

    A string of the page is a [NavigableString]; [plain] is false for the
    subclasses that [Tag.get_text] leaves out (comments, doctype and the
    like), which are still instances of [NavigableString]. *)
Inductive PageElement :=
| NavigableString (plain : bool) (s : string)
| TagElement (t : Tag)
with Tag :=
| mkTag (name : string) (class_ : option (list string))
        (attrs : list (string * string)) (contents : list PageElement).

Definition name (t : Tag) : string := let 'mkTag n _ _ _ := t in n.
Definition class_ (t : Tag) : option (list string) := let 'mkTag _ c _ _ := t in c.
Definition attrs (t : Tag) : list (string * string) := let 'mkTag _ _ a _ := t in a.
Definition contents (t : Tag) : list PageElement := let 'mkTag _ _ _ cs := t in cs.

(** [tag.attrs.get(key)] for a single-valued attribute *)
Fixpoint attr_get (key : string) (a : list (string * string)) : option string :=
  match a with
  | [] => None
  | (k, v) :: r => if String.eqb k key then Some v else attr_get key r
  end.

(** [tag[key]] / [tag.attrs[key]] *)
Definition attr_item (key : string) (t : Tag) : outcome string :=
  match attr_get key (attrs t) with
  | Some v => Returns v
  | None => Raises (KeyError key)
  end.

(** A reference to a tag of the page: the tag, its [.parent], and its
    place in the page (the child indices from the document root), which
    is what tells two equal-looking tags apart.  The index among the
    parent's contents is the last element of [loc]. *)
Record Node := mkNode { loc : list nat; parent : Tag; self : Tag }.

(** [tag.descendants] restricted to tags, in document order; [base] is
    the place of [t]. *)
Fixpoint descendants (base : list nat) (t : Tag) : list Node :=
  let 'mkTag _ _ _ cs := t in
  (fix walk (i : nat) (cs : list PageElement) : list Node :=
     match cs with
     | [] => []
     | NavigableString _ _ :: r => walk (S i) r
     | TagElement c :: r =>
         mkNode (base ++ [i]) t c :: descendants (base ++ [i]) c ++ walk (S i) r
     end) 0 cs.

(** Matching of a [class_=...] argument against a tag: some token is the
    wanted string, or the tokens joined by blanks are. *)
Definition class_matches (want : string) (t : Tag) : bool :=
  match class_ t with
  | None => false
  | Some toks =>
      existsb (String.eqb want) toks || String.eqb (PyStr.join " " toks) want
  end.

(** [n.parent.find_all(class_=want)] and friends take the place and the tag
    searched in; for the document root the place is []. *)
Definition find_all_class (base : list nat) (t : Tag) (want : string) : list Node :=
  List.filter (fun n => class_matches want (self n)) (descendants base t).

Definition find_all_name (base : list nat) (t : Tag) (tag : string) : list Node :=
  List.filter (fun n => String.eqb (name (self n)) tag) (descendants base t).

(** [t.find(tag, class_=want)] *)
Definition find_name_class (base : list nat) (t : Tag) (tag want : string) : option Node :=
  List.find (fun n => String.eqb (name (self n)) tag && class_matches want (self n))
            (descendants base t).

Definition has_id (i : string) (t : Tag) : bool :=
  match attr_get "id" (attrs t) with
  | Some v => String.eqb v i
  | None => false
  end.

(** [soup.find(id=i)] *)
Definition find_id (base : list nat) (t : Tag) (i : string) : option Node :=
  List.find (fun n => has_id i (self n)) (descendants base t).

(** [soup.find(tag, id=i)] *)
Definition find_name_id (base : list nat) (t : Tag) (tag i : string) : option Node :=
  List.find (fun n => String.eqb (name (self n)) tag && has_id i (self n))
            (descendants base t).

(** [tag.get_text()]: the plain strings below the tag, concatenated *)
Fixpoint get_text_of (t : Tag) : string :=
  let 'mkTag _ _ _ cs := t in
  (fix walk (cs : list PageElement) : string :=
     match cs with
     | [] => ""
     | NavigableString plain s :: r => (if plain then s else "") +:+ walk r
     | TagElement c :: r => get_text_of c +:+ walk r
     end) cs.

(** [tag.string]: the single string below the tag, if there is one *)
Fixpoint string_of (t : Tag) : option string :=
  match t with
  | mkTag _ _ _ [NavigableString _ s] => Some s
  | mkTag _ _ _ [TagElement c] => string_of c
  | _ => None
  end.

(** [node.parent.attrs] of the page's own references: the parent of a
    reference is a tag (the [BeautifulSoup] object at the top, which has
    no attributes). *)
Definition soup_root (cs : list PageElement) : Tag := mkTag "[document]" None [] cs.

(** [node.parent]'s place: the place of the node without its last index *)
Definition parent_loc (node : Node) : list nat := removelast (loc node).

(** ** The scraped hierarchy *)

(** The dictionary built by [extract_node_details].  [first_page] is
    [Some s] for a string and [None] for Python's [None]. *)
Inductive FindingAidNode :=
  mkDetails { node_id : string;
              title : string;
              description : string;
              digitised : bool;
              first_page : option string;
              children : list FindingAidNode }.

(** [try: body except KeyError: handler] *)
Definition try_except_KeyError {A} (body handler : outcome A) : outcome A :=
  match body with
  | Raises (KeyError _) => handler
  | r => r
  end.

(** [try: body except AttributeError: handler] *)
Definition try_except_AttributeError {A} (body handler : outcome A) : outcome A :=
  match body with
  | Raises AttributeError => handler
  | r => r
  end.

(** Attribute access or method call on a value that may be [None] *)
Definition deref {A} (o : option A) : outcome A :=
  match o with
  | Some a => Returns a
  | None => Raises AttributeError
  end.

Definition is_digitised (node : Node) : bool :=
  match class_ (parent node) with
  | Some toks => existsb (String.eqb "image-and-title") toks
  | None => false
  end.

Definition get_first_page (node : Node) : outcome (option string) :=
  match find_name_class (parent_loc node) (parent node) "img" "thumbnail" with
  | Some img => pid ← attr_item "data-pid" (self img); Returns (Some pid)
  | None => Returns None
  end.

(** The body of the loop of [get_text], one child of the parent at a time *)
Fixpoint text_fragments (cs : list PageElement) : list string :=
  match cs with
  | [] => []
  | NavigableString _ s :: r =>
      let string := PyStr.strip s in
      if String.eqb string "" then text_fragments r else string :: text_fragments r
  | TagElement c :: r =>
      if String.eqb (name c) "p"
      then PyStr.strip (PyStr.str_opt (string_of c)) :: text_fragments r
      else text_fragments r
  end.

Definition get_text (node : Node) : string :=
  PyStr.join PyStr.nl (text_fragments (contents (parent node))).

(** [f"ctag-heading c0{n}"] *)
Definition heading_class (n : nat) : string := "ctag-heading c0" +:+ PyStr.decimal n.

(** [get_children], with the function it calls back as a parameter *)
Definition get_children_with (extract : Node -> nat -> outcome FindingAidNode)
    (parent_ : Node) (level : nat) : outcome (list FindingAidNode) :=
  for_append (fun child => extract child (level + 1))
             (find_all_class (parent_loc parent_) (parent parent_)
                             (heading_class (level + 1))).

Fixpoint extract_node_details (fuel : nat) (node : Node) (level : nat)
    : outcome FindingAidNode :=
  match fuel with
  | 0 => OutOfFuel
  | S fuel' =>
      i ← attr_item "id" (self node);
      let t := PyStr.strip (get_text_of (self node)) in
      let d := get_text node in
      let dig := is_digitised node in
      fp ← (if dig
            then try_except_KeyError (get_first_page node) (Returns (Some ""))
            else Returns (Some ""));
      cs ← get_children_with (extract_node_details fuel') node level;
      Returns (mkDetails i t d dig fp cs)
  end.

Definition get_children (fuel : nat) : Node -> nat -> outcome (list FindingAidNode) :=
  get_children_with (extract_node_details fuel).

(** *** A bound on the depth of the descent *)

(** The levels [n] whose [heading_class n] a tag can match: read back from
    its joined class value and from each token. *)
Definition parse_heading_class (s : string) : option nat :=
  match PyStr.strip_prefix "ctag-heading c0" s with
  | Some r => PyStr.read_decimal r
  | None => None
  end.

Definition tag_levels (t : Tag) : list nat :=
  match class_ t with
  | None => []
  | Some toks => omap parse_heading_class (PyStr.join " " toks :: toks)
  end.

Definition max_level (t : Tag) : nat :=
  list_max (flat_map (fun n => tag_levels (self n)) (descendants [] t)).

Definition depth_bound (t : Tag) : nat := S (max_level t).

(** ** Summary of the finding aid *)

Definition get_string_by_id (soup : Tag) (tag id : string) : outcome string :=
  try_except_AttributeError
    (n ← deref (find_name_id [] soup tag id);
     Returns (PyStr.str_opt (string_of (self n))))
    (Returns "").

Definition get_fa_details (soup : Tag) : outcome (gmap string string) :=
  t ← get_string_by_id soup "h1" "contentrow";
  c ← get_string_by_id soup "h2" "collection-number";
  Returns (<["collection_number" := c]> (<["title" := t]> ∅)).

Definition check_tag (node : PageElement) (tag : string) : bool :=
  match node with
  | TagElement t => String.eqb (name t) tag
  | NavigableString _ _ => false
  end.

(** The loop of [find_sibling_tag] over [cs], the siblings from index [j] on *)
Fixpoint first_tag_from (base : list nat) (par : Tag) (j : nat)
    (cs : list PageElement) (tag : string) : option Node :=
  match cs with
  | [] => None
  | sib :: r =>
      match sib with
      | TagElement t =>
          if check_tag sib tag then Some (mkNode (base ++ [j]) par t)
          else first_tag_from base par (S j) r tag
      | NavigableString _ _ => first_tag_from base par (S j) r tag
      end
  end.

(** [node.next_siblings] *)
Definition next_siblings (node : Node) : list PageElement :=
  drop (S (List.last (loc node) 0)) (contents (parent node)).

Definition find_sibling_tag (node : Node) (tag : string) : option Node :=
  first_tag_from (parent_loc node) (parent node) (S (List.last (loc node) 0))
                 (next_siblings node) tag.

Definition label_key (label : Node) : string :=
  PyStr.replace_blank (PyStr.strip (PyStr.lower (PyStr.str_opt (string_of (self label))))).

(** The loop over the labels of [get_fa_summary] *)
Fixpoint summary_loop (labels : list Node) (summary_data : gmap string string)
    : outcome (gmap string string) :=
  match labels with
  | [] => Returns summary_data
  | label :: r =>
      value ← deref (find_sibling_tag label "dd");
      summary_loop r (<[label_key label := PyStr.strip (get_text_of (self value))]> summary_data)
  end.

Definition get_fa_summary (soup : Tag) : outcome (gmap string string) :=
  match find_id [] soup "collection-summary" with
  | Some summary_head =>
      summary ← deref (find_sibling_tag summary_head "dl");
      summary_loop (find_all_name (loc summary) (self summary) "dt") ∅
  | None => Returns ∅
  end.

(** The values of the dictionary returned by [convert_finding_aid] *)
Inductive field :=
| Text (s : string)
| Items (l : list FindingAidNode).

(** The loop of [convert_finding_aid] over the level-1 headings *)
Definition extract (soup : Tag) : outcome (list FindingAidNode) :=
  for_append (fun node => extract_node_details (depth_bound soup) node 1)
             (find_all_class [] soup "ctag-heading c01").

(** [convert_finding_aid] from the parsed page on *)
Definition convert_finding_aid (soup : Tag) : outcome (gmap string field) :=
  summary_data ← get_fa_summary soup;
  fa_data ← (match summary_data !! "title" with
             | Some _ => Returns summary_data
             | None => get_fa_details soup
             end);
  fa_items ← extract soup;
  Returns (<["items" := Items fa_items]> (Text <$> (fa_data : gmap string string))).

(** ** Leaves *)

(** The branch of [find_leaves] for a dict *)
Fixpoint find_leaves_dict (node : FindingAidNode) : list FindingAidNode :=
  match children node with
  | [] => [node]
  | _ =>
      (fix each (js : list FindingAidNode) : list FindingAidNode :=
         match js with
         | [] => []
         | j :: r => find_leaves_dict j ++ each r
         end) (children node)
  end.

(** The branch of [find_leaves] for a list *)
Fixpoint find_leaves_list (node : list FindingAidNode) : list FindingAidNode :=
  match node with
  | [] => []
  | i :: r => find_leaves_dict i ++ find_leaves_list r
  end.

(** The argument of [find_leaves] is a list of nodes or one node *)
Inductive leaves_arg :=
| AList (l : list FindingAidNode)
| ADict (d : FindingAidNode).

(** The generator [find_leaves], as the list of what it yields *)
Definition find_leaves (node : leaves_arg) : list FindingAidNode :=
  match node with
  | AList l => find_leaves_list l
  | ADict d => find_leaves_dict d
  end.

(** ** Paths to leaves *)

Record LeafPath := mkPath { path_id : string; path_title : string; context : string }.

(** The title lists of [get_paths] are Python lists mutated in place and
    shared between a call and its callees: they live in a store, a name
    holds a reference, the index of its cell.  Cell [default_titles] is
    the list made once, when the function is defined, for the default
    value of the parameter [titles]. *)
Module Store.

Abbreviation ref := nat (only parsing).
Abbreviation store := (list (list string)) (only parsing).

Definition default_titles : ref := 0.
Definition initial : store := [[]].

Definition py (A : Type) : Type := store -> outcome (A * store).

Definition ret {A} (a : A) : py A := fun σ => Returns (a, σ).
Definition bind {A B} (m : py A) (k : A -> py B) : py B :=
  fun σ => match m σ with
           | Returns (a, σ') => k a σ'
           | Raises e => Raises e
           | OutOfFuel => OutOfFuel
           end.

(** The list a reference names; the references of the code always name a
    cell of the store. *)
Definition read (r : ref) (σ : store) : list string := default [] (σ !! r).

(** [[]]: a new list *)
Definition new_list : py ref := fun σ => Returns (length σ, σ ++ [[]]).

(** [r.append(x)] *)
Definition append (r : ref) (x : string) : py unit :=
  fun σ => Returns (tt, <[r := read r σ ++ [x]]> σ).

(** [r.copy()], the copy being used as a value *)
Definition copy (r : ref) : py (list string) := fun σ => Returns (read r σ, σ).

(** [r.pop()] *)
Definition pop (r : ref) : py unit :=
  fun σ => match read r σ with
           | [] => Raises IndexError
           | _ :: _ => Returns (tt, <[r := removelast (read r σ)]> σ)
           end.

End Store.

Notation "x ⇐ m ; k" := (Store.bind m (fun x => k))
  (at level 20, m at level 100, k at level 200, only parsing).

(** [l.pop()] on a list held as a value *)
Definition pop_value (l : list string) : Store.py (list string) :=
  fun σ => match l with
           | [] => Raises IndexError
           | _ :: _ => Returns (removelast l, σ)
           end.

(** The loop of [get_paths] over the children of a node, with the call
    back to [get_paths] as a parameter:
    [for i in node["children"]: paths.extend(get_paths(i, paths, titles)); titles.pop()] *)
Fixpoint get_paths_each (visit : FindingAidNode -> Store.py (list LeafPath))
    (titles : Store.ref) (rest : list FindingAidNode) (paths : list LeafPath)
    : Store.py (list LeafPath) :=
  match rest with
  | [] => Store.ret paths
  | i :: r =>
      ps ⇐ visit i;
      (* Go back up a level *)
      _ ⇐ Store.pop titles;
      get_paths_each visit titles r (paths ++ ps)
  end.

(** [get_paths(node, paths, titles)].  The parameter [paths] is rebound to
    a new list on entry and so is not a parameter here; the list [paths]
    is local and returned, a value.  [titles] is the caller's list. *)
Fixpoint get_paths (node : FindingAidNode) (titles : Store.ref)
    : Store.py (list LeafPath) :=
  _ ⇐ Store.append titles (title node);
  match children node with
  | [] =>
      context ⇐ Store.copy titles;
      (* Remove the item's own title *)
      context ⇐ pop_value context;
      (* Reset title list: the name is bound to a new list *)
      titles' ⇐ Store.new_list;
      Store.ret [mkPath (node_id node) (title node) (PyStr.join " / " context)]
  | _ => get_paths_each (fun i => get_paths i titles) titles (children node) []
  end.

(** The loop that collects the paths of all the series:
    [paths.extend(get_paths(series, [], []))] *)
Fixpoint paths_loop (items : list FindingAidNode) (paths : list LeafPath)
    : Store.py (list LeafPath) :=
  match items with
  | [] => Store.ret paths
  | series :: r =>
      titles ⇐ Store.new_list;
      ps ⇐ get_paths series titles;
      paths_loop r (paths ++ ps)
  end.

Definition build_paths (items : list FindingAidNode) : Store.py (list LeafPath) :=
  paths_loop items [].

(** [get_paths(node)]: the call that leaves [titles] to its default *)
Definition get_paths_default (node : FindingAidNode) : Store.py (list LeafPath) :=
  get_paths node Store.default_titles.

(** * Notions used in the statements *)

(** ** Places and levels in a page *)

(** The inner loop of [descendants], as a function of its own *)
Fixpoint walk_from (base : list nat) (t : Tag) (i : nat) (cs : list PageElement)
    : list Node :=
  match cs with
  | [] => []
  | NavigableString _ _ :: r => walk_from base t (S i) r
  | TagElement c :: r =>
      mkNode (base ++ [i]) t c :: descendants (base ++ [i]) c ++ walk_from base t (S i) r
  end.

(** The levels of all the tags below a tag *)
Definition levels_below (t : Tag) : list nat :=
  flat_map (fun n => tag_levels (self n)) (descendants [] t).

(** The headings [get_children] visits for a node at a level *)
Definition attached (node : Node) (level : nat) : list Node :=
  find_all_class (parent_loc node) (parent node) (heading_class (level + 1)).

(** The step bound [fuel] is enough for a node at a level *)
Definition enough (fuel : nat) (node : Node) (level : nat) : Prop :=
  0 < fuel /\ max_level (parent node) < level + fuel.

(** ** Sample pages *)

Module Sample.

Definition text (s : string) : PageElement := NavigableString true s.

Definition element (nm : string) (cls : option (list string))
    (a : list (string * string)) (cs : list PageElement) : PageElement :=
  TagElement (mkTag nm cls a cs).

(** [<h3 class="ctag-heading cNN" id=...>title</h3>] *)
Definition heading (level i t : string) : Tag :=
  mkTag "h3" (Some ["ctag-heading"; level]) [("id", i)] [text t].

(** The headings of two series and their items, all side by side under
    one parent:
    [<h3 c01 a>A</h3><h3 c02 x>X</h3><h3 c01 b>B</h3><h3 c02 y>Y</h3>] *)
Definition flat_page : Tag :=
  soup_root [ TagElement (heading "c01" "a" "A"); TagElement (heading "c02" "x" "X");
              TagElement (heading "c01" "b" "B"); TagElement (heading "c02" "y" "Y") ].

(** Each heading in a wrapper of its own, items inside the wrapper of
    their series; the item is digitised. *)
Definition item_wrapper : Tag :=
  mkTag "div" (Some ["image-and-title"]) []
    [ TagElement (heading "c02" "i1" "Item 1_1");
      element "img" (Some ["thumbnail"]) [("data-pid", "nla.obj-999")] [] ].

Definition series_wrapper : Tag :=
  mkTag "div" (Some ["c01-wrap"]) []
    [ TagElement (heading "c01" "s1" "Series 1. Test");
      text " About the series ";
      element "p" None [] [text "Letters, "; element "em" None [] [text "1900"]];
      TagElement item_wrapper ].

Definition nested_page : Tag := soup_root [TagElement series_wrapper].

(** The references to the two headings of [nested_page] *)
Definition nested_series : Node :=
  mkNode [0; 0] series_wrapper (heading "c01" "s1" "Series 1. Test").
Definition nested_item : Node :=
  mkNode [0; 3; 0] item_wrapper (heading "c02" "i1" "Item 1_1").

(** Each heading first in a wrapper of its own, the wrapper of the second
    series inside the wrapper of the first:
    [<div><h3 c01 a>A</h3><div><h3 c01 b>B</h3><div><h3 c02 y>Y</h3></div></div></div>] *)
Definition wrapped_page : Tag :=
  soup_root
    [ element "div" None []
        [ TagElement (heading "c01" "a" "A");
          element "div" None []
            [ TagElement (heading "c01" "b" "B");
              element "div" None [] [TagElement (heading "c02" "y" "Y")] ] ] ].

Definition nested_item_details : FindingAidNode :=
  mkDetails "i1" "Item 1_1" "" true (Some "nla.obj-999") [].
Definition nested_series_details : FindingAidNode :=
  mkDetails "s1" "Series 1. Test" ("About the series" +:+ PyStr.nl +:+ "None")
            false (Some "") [nested_item_details].

End Sample.

(** ** The hierarchy of the headings *)

(** Two nodes of one level share a child: a heading is attached to both. *)
Definition shares_child (n n' : Node) (level : nat) : Prop :=
  exists c c', In c (attached n level) /\ In c' (attached n' level) /\ loc c = loc c'.

(** No heading is attached to two different series. *)
Definition single_parent (soup : Tag) : Prop :=
  forall n n',
    In n (find_all_class [] soup "ctag-heading c01") ->
    In n' (find_all_class [] soup "ctag-heading c01") ->
    loc n <> loc n' -> ~ shares_child n n' 1.

Module Deep.

(** Ten levels of headings, each in a wrapper inside the wrapper of the
    level above; the id and the title of a heading are its marker. *)
Fixpoint chain (levels : list string) : list PageElement :=
  match levels with
  | [] => []
  | l :: r => [Sample.element "div" None []
                 (TagElement (Sample.heading l l l) :: chain r)]
  end.

Definition markers : list string :=
  ["c01"; "c02"; "c03"; "c04"; "c05"; "c06"; "c07"; "c08"; "c09"; "c10"].

Definition page : Tag := soup_root (chain markers).

(** The wrapper of the level-9 heading and the reference to the heading *)
Definition wrapper9 : Tag :=
  mkTag "div" None []
    [ TagElement (Sample.heading "c09" "c09" "c09");
      Sample.element "div" None [] [TagElement (Sample.heading "c10" "c10" "c10")] ].

Definition heading9 : Node :=
  mkNode [0; 1; 1; 1; 1; 1; 1; 1; 1; 0] wrapper9 (Sample.heading "c09" "c09" "c09").

(** The reference to the heading marked [c10], inside [wrapper9] *)
Definition heading10 : Node :=
  mkNode [0; 1; 1; 1; 1; 1; 1; 1; 1; 1; 0]
         (mkTag "div" None [] [TagElement (Sample.heading "c10" "c10" "c10")])
         (Sample.heading "c10" "c10" "c10").

End Deep.




Module Orphan.

(** A level-2 heading without [id] and without a series around it *)
Definition heading2 : Tag :=
  mkTag "h4" (Some ["ctag-heading"; "c02"]) [] [Sample.text "Item"].

Definition page : Tag := soup_root [TagElement heading2].


Definition series : Node :=
  mkNode [0; 0] (mkTag "div" None []
                   [ TagElement (Sample.heading "c01" "s1" "Series");
                     Sample.element "div" None [] [TagElement heading2] ])
         (Sample.heading "c01" "s1" "Series").

Definition item : Node :=
  mkNode [0; 1; 0] (mkTag "div" None [] [TagElement heading2]) heading2.

End Orphan.

(** ** Digitised items *)

(** The structural parent carries the class of a digitised item. *)
Definition carries_marker (t : Tag) : Prop :=
  exists toks, class_ t = Some toks /\ In "image-and-title" toks.

(** [node.parent.find("img", class_="thumbnail")] *)
Definition thumbnail (node : Node) : option Node :=
  find_name_class (parent_loc node) (parent node) "img" "thumbnail".

Module Digitised.

(** A digitised item without any thumbnail image *)
Definition bare : Node :=
  mkNode [0; 0]
    (mkTag "div" (Some ["image-and-title"]) []
       [TagElement (Sample.heading "c02" "i1" "Item 1_1")])
    (Sample.heading "c02" "i1" "Item 1_1").

(** A digitised item whose thumbnail image has no [data-pid] *)
Definition unnumbered : Node :=
  mkNode [0; 0]
    (mkTag "div" (Some ["image-and-title"]) []
       [ TagElement (Sample.heading "c02" "i1" "Item 1_1");
         Sample.element "img" (Some ["thumbnail"]) [("src", "t.jpg")] [] ])
    (Sample.heading "c02" "i1" "Item 1_1").

End Digitised.

(** ** Pages with a summary region *)

Module Summary.

Definition region_head : PageElement :=
  Sample.element "h2" None [("id", "collection-summary")]
                 [Sample.text "Collection Summary"].

(** The last label of the list has no [<dd>] after it. *)
Definition dangling_label : Tag :=
  soup_root
    [ region_head;
      Sample.element "dl" None []
        [ Sample.element "dt" None [] [Sample.text "Title"];
          Sample.element "dd" None [] [Sample.text " Papers of A. Writer "];
          Sample.element "dt" None [] [Sample.text "Extent"] ] ].

(** A summary region without a label for the title, on a page that has
    the title as its [<h1 id="contentrow">] *)
Definition untitled : Tag :=
  soup_root
    [ Sample.element "h1" None [("id", "contentrow")] [Sample.text "Papers of A. Writer"];
      region_head;
      Sample.element "dl" None []
        [ Sample.element "dt" None [] [Sample.text "Date Range"];
          Sample.element "dd" None [] [Sample.text "1900-1950"];
          Sample.element "dt" None [] [Sample.text "Extent"];
          Sample.element "dd" None [] [Sample.text "3 boxes"] ] ].

(** The same region with a label for the title *)
Definition titled : Tag :=
  soup_root
    [ region_head;
      Sample.element "dl" None []
        [ Sample.element "dt" None [] [Sample.text "Title"];
          Sample.element "dd" None [] [Sample.text " Papers of A. Writer "];
          Sample.element "dt" None [] [Sample.text "Date Range"];
          Sample.element "dd" None [] [Sample.text "1900-1950"] ] ].

(** What [untitled] converts to *)
Definition untitled_result : gmap string field :=
  <["items" := Items []]>
    (Text <$> (<["collection_number" := ""]> (<["title" := "Papers of A. Writer"]> ∅))).

End Summary.

(** ** Leaves and paths *)

Module TwoSeries.

(** Two series and nothing below them *)
Definition page : Tag :=
  soup_root
    [ Sample.element "div" None [] [TagElement (Sample.heading "c01" "a" "Series A")];
      Sample.element "div" None [] [TagElement (Sample.heading "c01" "b" "Series B")] ].

Definition items : list FindingAidNode :=
  [ mkDetails "a" "Series A" "" false (Some "") [];
    mkDetails "b" "Series B" "" false (Some "") [] ].

End TwoSeries.

(** [node["children"] == []] *)
Definition is_leaf (n : FindingAidNode) : bool :=
  match children n with
  | [] => true
  | _ => false
  end.

(** The nodes of a hierarchy in pre-order: a node, then what is below its
    children, from left to right *)
Fixpoint preorder (n : FindingAidNode) : list FindingAidNode :=
  n :: (fix each (js : list FindingAidNode) : list FindingAidNode :=
          match js with
          | [] => []
          | j :: r => preorder j ++ each r
          end) (children n).

(** The leaves below a node in the order of the hierarchy, each with the
    chain of its ancestors from the series down to its parent;
    [ancestors] are the ancestors of [node] itself. *)
Fixpoint leaves_with_ancestors (ancestors : list FindingAidNode) (node : FindingAidNode)
    : list (list FindingAidNode * FindingAidNode) :=
  match children node with
  | [] => [(ancestors, node)]
  | _ =>
      (fix each (js : list FindingAidNode) :=
         match js with
         | [] => []
         | j :: r => leaves_with_ancestors (ancestors ++ [node]) j ++ each r
         end) (children node)
  end.

(** The record of a leaf: its id, its title, and the titles of its
    ancestors joined by [" / "] *)
Definition path_record (al : list FindingAidNode * FindingAidNode) : LeafPath :=
  mkPath (node_id (snd al)) (title (snd al)) (PyStr.join " / " (map title (fst al))).

(** [path] leads from [top] down to the parent of [leaf], a node without
    children: [path] starts with [top], each node of it is followed by one
    of its children, and [leaf] is a child of the last; [path] is empty
    when [top] is the leaf. *)
Inductive Chain : FindingAidNode -> list FindingAidNode -> FindingAidNode -> Prop :=
| Chain_leaf n : children n = [] -> Chain n [] n
| Chain_down n c path leaf :
    In c (children n) -> Chain c path leaf -> Chain n (n :: path) leaf.

(** What one series gives when it is the only one, from the first store *)
Definition paths_of_series (series : FindingAidNode) : list LeafPath :=
  match build_paths [series] Store.initial with
  | Returns (paths, _) => paths
  | _ => []
  end.

(** What a call of [get_paths] does: [titles] holds the titles of the
    ancestors on entry and these followed by the title of the node on
    exit; no other list that was there is touched. *)
Definition get_paths_does (node : FindingAidNode) : Prop :=
  forall anc r (σ : Store.store),
    r < length σ -> Store.read r σ = map title anc ->
    exists σ' : Store.store,
      get_paths node r σ
      = Returns (map path_record (leaves_with_ancestors anc node), σ')
      /\ Store.read r σ' = map title (anc ++ [node])
      /\ length σ <= length σ'
      /\ forall r', r' < length σ -> r' <> r -> σ' !! r' = σ !! r'.

(** ** Siblings *)

(** The index of a tag among the contents of its parent *)
Definition sibling_index (node : Node) : nat := List.last (loc node) 0.

(** No tag with the name [tag] sits at the indices [lo < k <= hi] of [cs]. *)
Definition no_tag_between (tag : string) (cs : list PageElement) (lo hi : nat) : Prop :=
  forall k t, lo < k <= hi -> cs !! k = Some (TagElement t) -> name t <> tag.

Module Pairs.

(** A summary list in which the label [Extent] has no value of its own
    and the label [Title] comes twice *)
Definition summary_list : Tag :=
  mkTag "dl" None []
    [ Sample.element "dt" None [] [Sample.text "Title"];
      Sample.element "dd" None [] [Sample.text "First title"];
      Sample.element "dt" None [] [Sample.text "Extent"];
      Sample.element "dt" None [] [Sample.text "Date Range"];
      Sample.element "dd" None [] [Sample.text "1900-1950"];
      Sample.element "dt" None [] [Sample.text " TITLE "];
      Sample.element "dd" None [] [Sample.text "Second title"] ].

Definition page : Tag := soup_root [Summary.region_head; TagElement summary_list].

Definition summary : Node := mkNode [1] page summary_list.

Definition extent : Node :=
  mkNode [1; 2] summary_list (mkTag "dt" None [] [Sample.text "Extent"]).

Definition date_range : Node :=
  mkNode [1; 3] summary_list (mkTag "dt" None [] [Sample.text "Date Range"]).

(** What [get_fa_summary] gives for [page] *)
Definition summary_result : gmap string string :=
  <["title" := "Second title"]>
    (<["date_range" := "1900-1950"]> (<["extent" := "1900-1950"]> ∅)).

End Pairs.

(** ** The pairs of the summary *)

(** The value [get_fa_summary] stores for a label: the trimmed text of the
    tag that [find_sibling_tag] gives for it *)
Definition label_value (label : Node) : option string :=
  (fun value => PyStr.strip (get_text_of (self value))) <$> find_sibling_tag label "dd".

Definition has_value (label : Node) : bool :=
  match find_sibling_tag label "dd" with
  | Some _ => true
  | None => false
  end.

(** The last label of a list whose key is [k] *)
Definition last_label (k : string) (labels : list Node) : option Node :=
  List.find (fun l => String.eqb (label_key l) k) (rev labels).

(** ** Characters of a string *)

Fixpoint all_chars (p : ascii -> bool) (s : string) : bool :=
  match s with
  | EmptyString => true
  | String c r => p c && all_chars p r
  end.




Definition is_upper (c : ascii) : bool :=
  Nat.leb 65 (nat_of_ascii c) && Nat.leb (nat_of_ascii c) 90.

(** A character allowed in a key of the summary: no blank, no capital *)
Definition key_char (c : ascii) : bool :=
  negb (Ascii.eqb c " "%char) && negb (is_upper c).

(** ** Pages of ASCII text *)




(** ** Paths under titles that are already on the list *)

(** The record of a leaf when the list of titles held [before] on entry *)
Definition path_record_after (before : list string)
    (al : list FindingAidNode * FindingAidNode) : LeafPath :=
  mkPath (node_id (snd al)) (title (snd al))
         (PyStr.join " / " (before ++ map title (fst al))).

Module Series.

(** A series with one sub-series of two items, and a series that is an
    item itself *)
Definition letters : FindingAidNode :=
  mkDetails "s1" "Letters" "" false (Some "")
    [ mkDetails "s1.1" "Family" "" false (Some "")
        [ mkDetails "i1" "To her mother" "" false (Some "") [];
          mkDetails "i2" "To her sister" "" true None [] ] ].

Definition diary : FindingAidNode := mkDetails "s2" "Diary" "" false (Some "") [].

End Series.

(** ** The series of a page *)

(** What [extract_node_details] reads from the heading itself *)
Definition heading_id (h : Node) : option string := attr_get "id" (attrs (self h)).
Definition heading_title (h : Node) : string := PyStr.strip (get_text_of (self h)).

(** The title the fallback reads from the page *)
Definition fallback_title (soup : Tag) : string :=
  match find_name_id [] soup "h1" "contentrow" with
  | None => ""
  | Some n =>
      match string_of (self n) with
      | Some s => s
      | None => "None"
      end
  end.

Module Markup.

(** A page without summary region whose title has markup inside *)
Definition page : Tag :=
  soup_root
    [ Sample.element "h1" None [("id", "contentrow")]
        [Sample.text "Papers of "; Sample.element "em" None [] [Sample.text "A. Writer"]] ].

Definition result : gmap string field :=
  <["items" := Items []]>
    (Text <$> (<["collection_number" := ""]> (<["title" := "None"]> ∅))).

End Markup.

(** * The other notebooks *)

(** ** The pattern of the links (finding-aids notebook) *)

(** [re.search] for the pattern [.*?findingaid], a sequence of the two
    atoms below.  A match is tried at each position from the left; at a
    position the atoms are matched in order, the lazy repetition taking
    one more character each time the rest does not match; the result is
    the text matched, [m.group(0)].  The pattern has no class that
    depends on the character set: its literals are ASCII and [.] stops
    at the newline only, so it is run on the bytes of the text. *)
Module Re.

Inductive atom :=
| Class (p : ascii -> bool)       (* one character of a class, or a literal *)
| LazyStar (p : ascii -> bool).   (* X*? *)

(** [.] *)
Definition any (c : ascii) : bool := negb (Ascii.eqb c (ascii_of_nat 10)).

Fixpoint literal (s : string) : list atom :=
  match s with
  | EmptyString => []
  | String c r => Class (Ascii.eqb c) :: literal r
  end.

(** The atoms [re] matched at one position, [s] the text from there on *)
Fixpoint match_here (re : list atom) (s : string) : option string :=
  match re with
  | [] => Some EmptyString
  | Class p :: rest =>
      match s with
      | String c s' => if p c then String c <$> match_here rest s' else None
      | EmptyString => None
      end
  | LazyStar p :: rest =>
      (fix lazy (s : string) : option string :=
         match match_here rest s with
         | Some m => Some m
         | None =>
             match s with
             | String c s' => if p c then String c <$> lazy s' else None
             | EmptyString => None
             end
         end) s
  end.

(** [re.search(re, s)], as the text of the match if there is one *)
Fixpoint search (re : list atom) (s : string) : option string :=
  match match_here re s with
  | Some m => Some m
  | None =>
      match s with
      | String c s' => search re s'
      | EmptyString => None
      end
  end.

End Re.

(** ** Links to finding aids (finding-aids notebook) *)

Module Links.

(** [.*?findingaid] *)
Definition fa_re : list Re.atom := Re.LazyStar Re.any :: Re.literal "findingaid".

(** [sub in s] *)
Fixpoint contains (sub s : string) : bool :=
  match PyStr.strip_prefix sub s with
  | Some _ => true
  | None =>
      match s with
      | String _ r => contains sub r
      | EmptyString => false
      end
  end.

(** [ident[key]] for a dictionary with string values *)
Definition dict_item (key : string) (d : list (string * string)) : outcome string :=
  match attr_get key d with
  | Some v => Returns v
  | None => Raises (KeyError key)
  end.

(** [get_fa_link]; the result is [None] when the loop ends. *)
Fixpoint get_fa_link (identifiers : list (list (string * string)))
    : outcome (option string) :=
  match identifiers with
  | [] => Returns None
  | ident :: r =>
      value ← dict_item "value" ident;
      if contains "findingaid" value
      then m ← deref (Re.search fa_re value); Returns (Some m)
      else get_fa_link r
  end.

(** The text up to the end of the first occurrence of [sub] in [s] *)
Fixpoint up_to_first (sub s : string) : option string :=
  match PyStr.strip_prefix sub s with
  | Some _ => Some sub
  | None =>
      match s with
      | String c r => String c <$> up_to_first sub r
      | EmptyString => None
      end
  end.

End Links.

(** ** The links a page of results adds (finding-aids notebook) *)

Module Harvest.

(** [s.replace(old, new)] for a non-empty [old]: the occurrences are
    replaced from the left, the characters of a replaced occurrence are
    skipped. *)
Fixpoint replace_from (old new : string) (skip : nat) (s : string) : string :=
  match s with
  | EmptyString => EmptyString
  | String c r =>
      match skip with
      | S k => replace_from old new k r
      | 0 =>
          match PyStr.strip_prefix old s with
          | Some _ => new +:+ replace_from old new (String.length old - 1) r
          | None => String c (replace_from old new 0 r)
          end
      end
  end.

Definition replace (old new s : string) : string := replace_from old new 0 s.

(** [# Standardise urls] *)
Definition standardise (fa_link : string) : string :=
  replace "http://http" "http" (replace "https" "http" fa_link).

(** A record of the results, as far as the harvest reads it: its field
    [identifier], a list of dictionaries, if it has the field *)
Definition record_identifier := option (list (list (string * string))).

(** [get_fa_link(record["identifier"])] *)
Definition record_link (record : record_identifier) : outcome (option string) :=
  match record with
  | None => Raises (KeyError "identifier")
  | Some identifiers => Links.get_fa_link identifiers
  end.

(** The body of the loop over the records of a page:
    [try: ... except KeyError: pass; else: if fa_link: ...] *)
Definition harvest_record (record : record_identifier) (finding_aids : list string)
    : outcome (list string) :=
  match record_link record with
  | Raises (KeyError _) => Returns finding_aids
  | Raises e => Raises e
  | OutOfFuel => OutOfFuel
  | Returns None => Returns finding_aids
  | Returns (Some fa_link) =>
      if String.eqb fa_link "" then Returns finding_aids
      else Returns (finding_aids ++ [standardise fa_link])
  end.

Fixpoint harvest_records (records : list record_identifier) (finding_aids : list string)
    : outcome (list string) :=
  match records with
  | [] => Returns finding_aids
  | record :: rest =>
      finding_aids ← harvest_record record finding_aids;
      harvest_records rest finding_aids
  end.

End Harvest.

(** ** Texts and the Unicode character database *)

(** The years and the identifier are found with [\d] and [\b], which
    Python reads over the code points of a [str] with the Unicode
    character database.  A text is here the sequence of its code points,
    and the database, which is not part of the repository, is a parameter
    of the functions that use it. *)
Module Unicode.

Abbreviation text := (list N).

Record database := mkDatabase {
  todecimal : N -> option nat;   (* the value of a decimal digit (category Nd) *)
  isalpha : N -> bool;           (* [str.isalpha] *)
  isdigit : N -> bool;           (* [str.isdigit] *)
  isnumeric : N -> bool          (* [str.isnumeric] *)
}.

(** [str.isdecimal] *)
Definition isdecimal (db : database) (c : N) : bool :=
  match todecimal db c with
  | Some _ => true
  | None => false
  end.

(** [str.isalnum]: one of the four tests holds *)
Definition isalnum (db : database) (c : N) : bool :=
  isalpha db c || isdecimal db c || isdigit db c || isnumeric db c.

(** The text of an ASCII literal *)
Definition of_ascii (s : string) : text := map N_of_ascii (list_ascii_of_string s).

Definition nl : N := 10%N.

Definition between (lo hi c : N) : bool := N.leb lo c && N.leb c hi.

(** The entries of the database for Basic Latin, the Latin-1 Supplement
    and the Arabic-Indic digits (U+0660 to U+0669), for the examples; a
    character of another block has no property in this excerpt. *)
Definition excerpt : database :=
  {| todecimal c :=
       if between 48 57 c then Some (N.to_nat (c - 48))
       else if between 1632 1641 c then Some (N.to_nat (c - 1632))
       else None;
     isalpha c :=
       between 65 90 c || between 97 122 c
       || N.eqb c 170 || N.eqb c 181 || N.eqb c 186
       || between 192 214 c || between 216 246 c || between 248 255 c;
     isdigit c :=
       between 48 57 c || between 1632 1641 c
       || N.eqb c 178 || N.eqb c 179 || N.eqb c 185;
     isnumeric c :=
       between 48 57 c || between 1632 1641 c
       || N.eqb c 178 || N.eqb c 179 || N.eqb c 185 || between 188 190 c |}.

End Unicode.

(** ** The patterns of the years and of the identifier *)

(** [re.search] over code points for the patterns [\b(\d{4})$] and
    [nla.obj-\d+], which are sequences of the atoms below.  A match is
    tried at each position from the left; at a position the atoms are
    matched in order, the repetition taking as many characters as it
    can before it gives some back; the result is the text matched. *)
Module Pattern.

Inductive atom :=
| Class (p : N -> bool)    (* one character of a class, or a literal *)
| Plus (p : N -> bool)     (* X+ *)
| WordBoundary             (* \b *)
| EndOfString.             (* $ *)

(** [.]: any character but the newline *)
Definition any (c : N) : bool := negb (N.eqb c Unicode.nl).

Definition literal (s : string) : list atom :=
  map (fun c => Class (N.eqb c)) (Unicode.of_ascii s).

(** [$]: at the end of the text, or before a newline that ends it *)
Definition at_end (s : Unicode.text) : bool :=
  match s with
  | [] => true
  | [c] => N.eqb c Unicode.nl
  | _ => false
  end.

(** The character before a position: the last one of the text [pre]
    before it, or [prev] when [pre] is empty *)
Fixpoint last_of (prev : option N) (pre : Unicode.text) : option N :=
  match pre with
  | [] => prev
  | c :: r => last_of (Some c) r
  end.

Section Search.

Context (db : Unicode.database).

(** [\d]: a decimal digit *)
Definition digit (c : N) : bool := Unicode.isdecimal db c.

(** [\w]: an alphanumeric character or the underscore *)
Definition word (c : N) : bool := Unicode.isalnum db c || N.eqb c 95.

Definition word_before (prev : option N) : bool :=
  match prev with
  | Some c => word c
  | None => false
  end.

Definition word_after (s : Unicode.text) : bool :=
  match s with
  | c :: _ => word c
  | [] => false
  end.

(** The atoms [re] matched at one position: [prev] is the character
    before the position, [s] the text from the position on. *)
Fixpoint match_here (re : list atom) (prev : option N) (s : Unicode.text)
    : option Unicode.text :=
  match re with
  | [] => Some []
  | Class p :: rest =>
      match s with
      | c :: s' => if p c then cons c <$> match_here rest (Some c) s' else None
      | [] => None
      end
  | Plus p :: rest =>
      (fix plus (s : Unicode.text) : option Unicode.text :=
         match s with
         | c :: s' =>
             if p c
             then match plus s' with
                  | Some m => Some (c :: m)
                  | None => cons c <$> match_here rest (Some c) s'
                  end
             else None
         | [] => None
         end) s
  | WordBoundary :: rest =>
      if xorb (word_before prev) (word_after s) then match_here rest prev s else None
  | EndOfString :: rest =>
      if at_end s then match_here rest prev s else None
  end.

Fixpoint search_from (re : list atom) (prev : option N) (s : Unicode.text)
    : option Unicode.text :=
  match match_here re prev s with
  | Some m => Some m
  | None =>
      match s with
      | c :: s' => search_from re (Some c) s'
      | [] => None
      end
  end.

(** [re.search(re, s)], as the text of the match if there is one *)
Definition search (re : list atom) (s : Unicode.text) : option Unicode.text :=
  search_from re None s.

End Search.

End Pattern.

(** ** Years at the end of a value (public-domain notebook) *)

Module Years.

(** A value of a record: a string, or something [re.search] refuses *)
Inductive value :=
| Str (s : Unicode.text)
| NotStr.

Inductive error :=
| AttributeError
| TypeError.

Section Years_of.

Context (db : Unicode.database).

(** [\b(\d{4})$]; the group is the whole match, the other atoms are of
    width zero. *)
Definition year_re : list Pattern.atom :=
  [ Pattern.WordBoundary;
    Pattern.Class (Pattern.digit db); Pattern.Class (Pattern.digit db);
    Pattern.Class (Pattern.digit db); Pattern.Class (Pattern.digit db);
    Pattern.EndOfString ].

(** [re.search(r"\b(\d{4})$", value).group(1)] *)
Definition search_year (v : value) : error + Unicode.text :=
  match v with
  | NotStr => inl TypeError
  | Str s =>
      match Pattern.search db year_re s with
      | Some m => inr m
      | None => inl AttributeError
      end
  end.

Definition get_latest_year (v : value) : option Unicode.text :=
  match search_year v with
  | inr year => Some year
  | inl AttributeError => None
  | inl TypeError => None
  end.

(** The number that a text of decimal digits writes, each digit with the
    value that the database gives it *)
Fixpoint int_from (acc : nat) (s : Unicode.text) : option nat :=
  match s with
  | [] => Some acc
  | c :: r =>
      match Unicode.todecimal db c with
      | Some d => int_from (10 * acc + d) r
      | None => None
      end
  end.

(** [int(year)], for the texts it is applied to here, which are made of
    decimal digits; there is no number for the empty text nor for a text
    with a character that is no decimal digit. *)
Definition int_of_digits (s : Unicode.text) : option nat :=
  match s with
  | [] => None
  | _ => int_from 0 s
  end.

(** [year and int(year) < 1949] *)
Definition before_1949 (year : option Unicode.text) : bool :=
  match year with
  | None => false
  | Some [] => false
  | Some y =>
      match int_of_digits y with
      | Some n => Nat.ltb n 1949
      | None => false
      end
  end.

(** The loop of [check_creators] *)
Fixpoint count_creators (creators : list value) (count : nat) : nat :=
  match creators with
  | [] => count
  | creator :: r =>
      let year := get_latest_year creator in
      if before_1949 year then count_creators r (count + 1) else count_creators r count
  end.

Definition check_creators (creators : list value) : bool :=
  Nat.eqb (length creators) (count_creators creators 0).

Definition check_date (issued : value) : bool :=
  before_1949 (get_latest_year issued).

(** [y] is a year at the end of [s]: four decimal digits that end [s], or
    come before the newline that ends [s], and have no alphanumeric
    character and no underscore before them. *)
Definition year_at_end (s y : Unicode.text) : Prop :=
  exists pre,
    (s = pre ++ y \/ s = pre ++ y ++ [Unicode.nl])
    /\ length y = 4
    /\ forallb (Pattern.digit db) y = true
    /\ Pattern.word_before db (Pattern.last_of None pre) = false.

(** The value ends with a year, and the year is before 1949. *)
Definition ends_before_1949 (v : value) : Prop :=
  exists s y n,
    v = Str s /\ year_at_end s y
    /\ int_of_digits y = Some n /\ n < 1949.

End Years_of.

End Years.

(** ** The identifier of a finding aid (conversion notebook) *)

Module FaId.

(** The longest start of [s] made of characters of a class *)
Fixpoint take_while (p : N -> bool) (s : Unicode.text) : Unicode.text :=
  match s with
  | c :: r => if p c then c :: take_while p r else []
  | [] => []
  end.

Section Identifier.

Context (db : Unicode.database).

(** [nla.obj-\d+]; the dot of the pattern is not escaped. *)
Definition fa_id_re : list Pattern.atom :=
  Pattern.literal "nla" ++ [Pattern.Class Pattern.any] ++ Pattern.literal "obj-"
  ++ [Pattern.Plus (Pattern.digit db)].

(** [re.search(r"nla.obj-\d+", url).group(0)] *)
Definition fa_id (url : Unicode.text) : outcome Unicode.text :=
  deref (Pattern.search db fa_id_re url).

(** [i] is an identifier in [url] at the place after [pre]: [nla], one
    character that is not a newline, [obj-] and all the decimal digits
    that follow, of which there is one at least. *)
Definition id_at (url pre i : Unicode.text) : Prop :=
  exists c ds post,
    url = pre ++ i ++ post
    /\ i = Unicode.of_ascii "nla" ++ c :: Unicode.of_ascii "obj-" ++ ds
    /\ Pattern.any c = true
    /\ ds <> []
    /\ forallb (Pattern.digit db) ds = true
    /\ (forall d, head post = Some d -> Pattern.digit db d = false).

End Identifier.

End FaId.

(** ** The records that are kept (public-domain notebook) *)

(** A record of the results as the harvest reads it: the fields
    [contributor] (a list), [issued] (a string or a number), [holding] (a
    list of dictionaries, each with its [nuc] if it has one), [id],
    [title] and [troveUrl], each of them there or not.  The values that
    are copied to the item without being read are of any type [J]. *)
Module Works.

Inductive issued_value :=
| IssuedStr (s : Unicode.text)
| IssuedInt (n : nat).

(** [str(issued)] *)
Definition str (i : issued_value) : Unicode.text :=
  match i with
  | IssuedStr s => s
  | IssuedInt n => Unicode.of_ascii (PyStr.decimal n)
  end.

(** [if issued], for a value that is there *)
Definition truthy (i : issued_value) : bool :=
  match i with
  | IssuedStr [] => false
  | IssuedStr _ => true
  | IssuedInt n => negb (Nat.eqb n 0)
  end.

(** The [creator] of an item: the names joined, or the field as it is *)
Inductive creator_value :=
| Joined (s : Unicode.text)
| AsGiven (creators : option (list Years.value)).

(** The strings of a list, when all its elements are strings *)
Fixpoint names (creators : list Years.value) : option (list Unicode.text) :=
  match creators with
  | [] => Some []
  | Years.Str s :: r => cons s <$> names r
  | Years.NotStr :: _ => None
  end.

(** [sep.join(l)] *)
Fixpoint join (sep : Unicode.text) (l : list Unicode.text) : Unicode.text :=
  match l with
  | [] => []
  | [s] => s
  | s :: r => s ++ sep ++ join sep r
  end.

(** [try: creator = " | ".join(creators)] [except TypeError: creator = creators] *)
Definition join_creators (creators : option (list Years.value)) : creator_value :=
  match creators with
  | Some l =>
      match names l with
      | Some ss => Joined (join (Unicode.of_ascii " | ") ss)
      | None => AsGiven creators
      end
  | None => AsGiven None
  end.

(** [d[key]] *)
Definition item_of {A} (key : string) (o : option A) : outcome A :=
  match o with
  | Some v => Returns v
  | None => Raises (KeyError key)
  end.

(** [l[0]] *)
Definition first_of {A} (l : list A) : outcome A :=
  match l with
  | x :: _ => Returns x
  | [] => Raises IndexError
  end.

Section Records.

Context (db : Unicode.database) (J : Type).

Record work := mkWork {
  contributor : option (list Years.value);
  issued : option issued_value;
  holding : option (list (option J));
  work_id : option J;
  work_title : option J;
  troveUrl : option J
}.

Record item := mkItem {
  item_id : J;
  item_title : J;
  creator : creator_value;
  date : option issued_value;
  trove_url : J;
  nuc : option J
}.

(** The value of [opening] after the two tests of the loop *)
Definition opening (record : work) : bool :=
  match contributor record with
  | Some (c :: cs) => Years.check_creators db (c :: cs)
  | _ =>
      match issued record with
      | Some i => if truthy i then Years.check_date db (Years.Str (str i)) else false
      | None => false
      end
  end.

(** [record["holding"][0]["nuc"]] *)
Definition holding_nuc (record : work) : outcome J :=
  holdings ← item_of "holding" (holding record);
  first ← first_of holdings;
  item_of "nuc" first.

(** The body of the loop over the records of a page *)
Definition harvest_work (record : work) (items : list item) : outcome (list item) :=
  if opening record
  then
    let creator := join_creators (contributor record) in
    nuc ← try_except_KeyError (v ← holding_nuc record; Returns (Some v)) (Returns None);
    i ← item_of "id" (work_id record);
    t ← item_of "title" (work_title record);
    u ← item_of "troveUrl" (troveUrl record);
    Returns (items ++ [mkItem i t creator (issued record) u nuc])
  else Returns items.

(** The record passes the test of the creators or of the date. *)
Definition qualifies (record : work) : Prop :=
  (exists c cs, contributor record = Some (c :: cs)
                /\ List.Forall (Years.ends_before_1949 db) (c :: cs))
  \/ ((contributor record = None \/ contributor record = Some [])
      /\ exists i, issued record = Some i
                   /\ Years.ends_before_1949 db (Years.Str (str i))).

(** The record has what an item is made of. *)
Definition complete (record : work) : Prop :=
  holding record <> Some []
  /\ is_Some (work_id record) /\ is_Some (work_title record)
  /\ is_Some (troveUrl record).

End Records.

Arguments mkWork {J}.
Arguments contributor {J}.
Arguments issued {J}.
Arguments holding {J}.
Arguments work_id {J}.
Arguments work_title {J}.
Arguments troveUrl {J}.
Arguments mkItem {J}.
Arguments item_id {J}.
Arguments item_title {J}.
Arguments creator {J}.
Arguments date {J}.
Arguments trove_url {J}.
Arguments nuc {J}.
Arguments opening db {J}.
Arguments holding_nuc {J}.
Arguments harvest_work db {J}.
Arguments qualifies db {J}.
Arguments complete {J}.

End Works.

(** * Properties *)

(** ** Induction on the page and on the scraped hierarchy *)

Section Nested_induction.

Variable P : Tag -> Prop.
Hypothesis P_tag :
  forall n c a cs, (forall t, In (TagElement t) cs -> P t) -> P (mkTag n c a cs).

Lemma Tag_nested_ind : forall t, P t.
Proof.
  fix IH 1. intros [n c a cs]. apply P_tag.
  induction cs as [|e r IHr]; intros t Hin; [destruct Hin|].
  destruct e as [pl s|t0]; destruct Hin as [Heq|Hin].
  - discriminate.
  - now apply IHr.
  - injection Heq as <-. apply IH.
  - now apply IHr.
Qed.

End Nested_induction.

Section Nested_induction_details.

Variable P : FindingAidNode -> Prop.
Hypothesis P_node :
  forall i t d g f cs, Forall P cs -> P (mkDetails i t d g f cs).

Lemma FindingAidNode_nested_ind : forall n, P n.
Proof.
  fix IH 1. intros [i t d g f cs]. apply P_node.
  induction cs as [|c r IHr]; constructor; [apply IH | exact IHr].
Qed.

End Nested_induction_details.

(** ** The loop [for_append] *)

Lemma for_append_returns {A B} (f : A -> outcome B) xs ys :
  for_append f xs = Returns ys <-> Forall2 (fun x y => f x = Returns y) xs ys.
Proof.
  revert ys. induction xs as [|x r IH]; intros ys; simpl.
  - split.
    + intros [= <-]. constructor.
    + intros H. inversion H. reflexivity.
  - unfold mbind, outcome_bind. split.
    + destruct (f x) as [y| |] eqn:Hx; try discriminate.
      destruct (for_append f r) as [ys'| |] eqn:Hr; try discriminate.
      intros [= <-]. constructor; [exact Hx | now apply IH].
    + intros H. inversion H as [|x' y l l' Hx Hr]; subst.
      rewrite Hx. apply IH in Hr. now rewrite Hr.
Qed.

Lemma for_append_ext {A B} (f g : A -> outcome B) xs :
  (forall x, In x xs -> f x = g x) -> for_append f xs = for_append g xs.
Proof.
  induction xs as [|x r IH]; intros H; simpl; [reflexivity|].
  rewrite (H x) by now left. rewrite IH; [reflexivity|].
  intros y Hy. apply H. now right.
Qed.



(** ** Places of the tags of a page *)

Lemma descendants_unfold base t :
  descendants base t = walk_from base t 0 (contents t).
Proof.
  destruct t as [n c a cs]. simpl.
  generalize (mkTag n c a cs) as t. generalize 0.
  induction cs as [|e r IH]; intros i t; simpl; [reflexivity|].
  destruct e as [pl s|t0]; [apply IH | now rewrite IH].
Qed.

(** A tag found below [t] is a child of [t] or lies below a child of [t]. *)
Lemma in_walk_from base t i cs n :
  In n (walk_from base t i cs) ->
  exists j c, In (TagElement c) cs /\
    (n = mkNode (base ++ [j]) t c \/ In n (descendants (base ++ [j]) c)).
Proof.
  revert i. induction cs as [|e r IH]; intros i; simpl; [intros []|].
  destruct e as [pl s|c].
  - intros H. destruct (IH _ H) as (j & c & Hc & Hn). exists j, c. auto.
  - intros [<-|H].
    + exists i, c. auto.
    + apply in_app_or in H as [H|H].
      * exists i, c. auto.
      * destruct (IH _ H) as (j & c' & Hc & Hn). exists j, c'. auto.
Qed.

Lemma in_descendants base t n :
  In n (descendants base t) ->
  exists j c, In (TagElement c) (contents t) /\
    (n = mkNode (base ++ [j]) t c \/ In n (descendants (base ++ [j]) c)).
Proof. rewrite descendants_unfold. apply in_walk_from. Qed.



(** The tags below a tag do not depend on the place the walk starts from. *)
Lemma descendants_self_base t : forall b b',
  map self (descendants b t) = map self (descendants b' t).
Proof.
  induction t as [nm c a cs IH] using Tag_nested_ind. intros b b'.
  rewrite !descendants_unfold. simpl. generalize (mkTag nm c a cs) as t.
  generalize 0. induction cs as [|e r IHr]; intros i t; simpl; [reflexivity|].
  assert (IH' : forall t, In (TagElement t) r -> forall b b',
             map self (descendants b t) = map self (descendants b' t)).
  { intros t0 H0. apply IH. now right. }
  destruct e as [pl s|c0]; [now apply IHr|].
  simpl. rewrite !map_app. f_equal. f_equal; [apply IH; now left | now apply IHr].
Qed.

Lemma descendants_child t c b b' :
  In (TagElement c) (contents t) ->
  In c (map self (descendants b t)) /\
  incl (map self (descendants b' c)) (map self (descendants b t)).
Proof.
  rewrite descendants_unfold. generalize 0. generalize (contents t) as cs.
  induction cs as [|e r IHr]; intros i; [intros []|].
  intros [->|Hin]; simpl.
  - split; [now left|]. intros x Hx. right. rewrite map_app. apply in_or_app. left.
    now rewrite (descendants_self_base c (b ++ [i]) b').
  - destruct (IHr (S i) Hin) as [H1 H2].
    destruct e as [pl s|c0]; [now split|]. simpl. split.
    + right. rewrite map_app. apply in_or_app. now right.
    + intros x Hx. right. rewrite map_app. apply in_or_app. right. now apply H2.
Qed.

(** What lies below the parent of a tag found below [t] lies below [t]. *)
Lemma descendants_of_parent t : forall b n b',
  In n (descendants b t) ->
  In (self n) (map self (descendants b t)) /\
  incl (map self (descendants b' (parent n))) (map self (descendants b t)).
Proof.
  induction t as [nm c a cs IH] using Tag_nested_ind. intros b n b' Hn.
  split; [now apply in_map|].
  apply in_descendants in Hn as (j & c' & Hc & [->|Hn]); cbn [parent].
  - now rewrite (descendants_self_base _ b' b).
  - destruct (IH _ Hc _ _ b' Hn) as [_ H2].
    intros x Hx. apply H2 in Hx.
    now apply (descendants_child (mkTag nm c a cs) c' b (b ++ [j]) Hc).
Qed.

(** ** The class of a heading and its level *)

Lemma strip_prefix_app p s : PyStr.strip_prefix p (p +:+ s) = Some s.
Proof.
  induction p as [|a p IH]; simpl; [reflexivity|].
  now rewrite Ascii.eqb_refl.
Qed.

Lemma str_app_cons c a b : String c a +:+ b = String c (a +:+ b).
Proof. reflexivity. Qed.

Lemma str_length_app a b : String.length (a +:+ b) = String.length a + String.length b.
Proof.
  induction a as [|c r IH]; [reflexivity|]. rewrite str_app_cons. simpl. now rewrite IH.
Qed.

Lemma read_decimal_decimal n : PyStr.read_decimal (PyStr.decimal n) = Some n.
Proof.
  unfold PyStr.read_decimal, PyStr.decimal.
  rewrite NilEmpty.usu. now rewrite DecimalNat.Unsigned.of_to.
Qed.

Lemma parse_heading_class_heading_class n :
  parse_heading_class (heading_class n) = Some n.
Proof.
  unfold parse_heading_class, heading_class.
  rewrite strip_prefix_app. apply read_decimal_decimal.
Qed.

Lemma heading_class_inj n m : heading_class n = heading_class m -> n = m.
Proof.
  intros H. apply (f_equal parse_heading_class) in H.
  rewrite !parse_heading_class_heading_class in H. congruence.
Qed.

Lemma class_matches_level n t :
  class_matches (heading_class n) t = true -> In n (tag_levels t).
Proof.
  unfold class_matches, tag_levels. destruct (class_ t) as [toks|]; [|discriminate].
  intros H. apply list_elem_of_In, list_elem_of_omap.
  apply orb_true_iff in H as [H|H].
  - apply existsb_exists in H as (tok & Htok & Heq). apply String.eqb_eq in Heq.
    exists tok. split.
    + apply list_elem_of_In. now right.
    + subst tok. apply parse_heading_class_heading_class.
  - apply String.eqb_eq in H. exists (PyStr.join " " toks). split.
    + apply list_elem_of_In. now left.
    + rewrite H. apply parse_heading_class_heading_class.
Qed.

Lemma max_level_levels_below t : max_level t = list_max (levels_below t).
Proof. reflexivity. Qed.

Lemma levels_below_self_map b t :
  flat_map (fun n => tag_levels (self n)) (descendants b t)
  = flat_map tag_levels (map self (descendants b t)).
Proof.
  induction (descendants b t) as [|n l IH]; simpl; [reflexivity|]. now rewrite IH.
Qed.

Lemma level_le_max_level b t n k :
  In n (descendants b t) -> In k (tag_levels (self n)) -> k <= max_level t.
Proof.
  intros Hn Hk. rewrite max_level_levels_below.
  assert (H : Forall (fun k => k <= list_max (levels_below t)) (levels_below t)).
  { now apply list_max_le. }
  rewrite List.Forall_forall in H. apply H.
  unfold levels_below. rewrite levels_below_self_map.
  apply in_flat_map. exists (self n). split; [|exact Hk].
  rewrite (descendants_self_base t [] b). now apply in_map.
Qed.

Lemma max_level_parent b t n :
  In n (descendants b t) -> max_level (parent n) <= max_level t.
Proof.
  intros Hn. rewrite (max_level_levels_below (parent n)).
  apply list_max_le. apply List.Forall_forall. intros k Hk.
  unfold levels_below in Hk. rewrite levels_below_self_map in Hk.
  apply in_flat_map in Hk as (c & Hc & Hk).
  apply (descendants_of_parent t b n [] Hn) in Hc.
  apply in_map_iff in Hc as (m & <- & Hm).
  now apply (level_le_max_level b t m).
Qed.

(** ** The descent of [extract_node_details] *)

Lemma get_children_attached fuel node level :
  get_children fuel node level
  = for_append (fun child => extract_node_details fuel child (level + 1))
               (attached node level).
Proof. reflexivity. Qed.

Lemma attached_in node level c :
  In c (attached node level) ->
  In c (descendants (parent_loc node) (parent node)) /\
  class_matches (heading_class (level + 1)) (self c) = true.
Proof. unfold attached, find_all_class. now rewrite filter_In. Qed.

Lemma enough_child fuel node level c :
  enough (S fuel) node level -> In c (attached node level) ->
  enough fuel c (level + 1).
Proof.
  intros [_ Hb] Hc. apply attached_in in Hc as [Hd Hm].
  pose proof (level_le_max_level _ _ _ _ Hd (class_matches_level _ _ Hm)) as Hk.
  pose proof (max_level_parent _ _ _ Hd) as Hp.
  unfold enough. lia.
Qed.

Lemma extract_node_details_S fuel node level :
  extract_node_details (S fuel) node level =
  (i ← attr_item "id" (self node);
   fp ← (if is_digitised node
         then try_except_KeyError (get_first_page node) (Returns (Some ""))
         else Returns (Some ""));
   cs ← get_children fuel node level;
   Returns (mkDetails i (PyStr.strip (get_text_of (self node))) (get_text node)
                      (is_digitised node) fp cs)).
Proof. reflexivity. Qed.

(** Reading the first page never raises past the [except KeyError]. *)
Lemma first_page_returns node :
  exists fp, try_except_KeyError (get_first_page node) (Returns (Some "")) = Returns fp.
Proof.
  unfold get_first_page, attr_item.
  destruct (find_name_class _ _ _ _) as [img|]; [|now exists None].
  destruct (attr_get "data-pid" (attrs (self img))) as [pid|];
    [now exists (Some pid) | now exists (Some "")].
Qed.

Lemma first_page_step_returns node :
  exists fp,
    (if is_digitised node
     then try_except_KeyError (get_first_page node) (Returns (Some ""))
     else Returns (Some "")) = Returns fp.
Proof.
  destruct (is_digitised node); [apply first_page_returns | now exists (Some "")].
Qed.

(** Two bounds that are both enough give the same outcome. *)
Lemma extract_fuel_stable fuel : forall fuel' node level,
  enough fuel node level -> enough fuel' node level ->
  extract_node_details fuel node level = extract_node_details fuel' node level.
Proof.
  induction fuel as [|fuel IH]; intros fuel' node level H H'.
  - destruct H as [H _]. lia.
  - destruct fuel' as [|fuel']; [destruct H' as [H' _]; lia|].
    rewrite !extract_node_details_S, !get_children_attached.
    rewrite (for_append_ext
               (fun child => extract_node_details fuel child (level + 1))
               (fun child => extract_node_details fuel' child (level + 1)));
      [reflexivity|].
    intros c Hc. apply IH; now apply (enough_child _ node).
Qed.



Lemma heading_class_1 : heading_class 1 = "ctag-heading c01".
Proof. reflexivity. Qed.



(** ** C1: the children of a node *)




(** A wrapper for every heading is not enough: when the wrapper of the
    second series lies inside the wrapper of the first, the item of the
    second series is a child of both. *)
Example wrapped_page_shares_child :
  extract Sample.wrapped_page
  = Returns
      [ mkDetails "a" "A" "" false (Some "") [ mkDetails "y" "Y" "" false (Some "") [] ];
        mkDetails "b" "B" "" false (Some "") [ mkDetails "y" "Y" "" false (Some "") [] ] ]
  /\ ~ single_parent Sample.wrapped_page.
Proof.
  split; [vm_compute; reflexivity|].
  intros H.
  apply (H (mkNode [0; 0] (mkTag "div" None []
              [ TagElement (Sample.heading "c01" "a" "A");
                Sample.element "div" None []
                  [ TagElement (Sample.heading "c01" "b" "B");
                    Sample.element "div" None []
                      [TagElement (Sample.heading "c02" "y" "Y")] ] ])
              (Sample.heading "c01" "a" "A"))
           (mkNode [0; 1; 0] (mkTag "div" None []
              [ TagElement (Sample.heading "c01" "b" "B");
                Sample.element "div" None []
                  [TagElement (Sample.heading "c02" "y" "Y")] ])
              (Sample.heading "c01" "b" "B"))).
  - vm_compute. now left.
  - vm_compute. right. now left.
  - discriminate.
  - exists (mkNode [0; 1; 1; 0]
              (mkTag "div" None [] [TagElement (Sample.heading "c02" "y" "Y")])
              (Sample.heading "c02" "y" "Y")),
           (mkNode [0; 1; 1; 0]
              (mkTag "div" None [] [TagElement (Sample.heading "c02" "y" "Y")])
              (Sample.heading "c02" "y" "Y")).
    repeat split; vm_compute; now left.
Qed.

(** ** C4: the depth of the hierarchy *)

(** A number of two digits or more is written with two characters or more. *)
Lemma decimal_two_digits n : 10 <= n -> 2 <= String.length (PyStr.decimal n).
Proof.
  intros Hn. pose proof (read_decimal_decimal n) as R.
  destruct (PyStr.decimal n) as [|c [|c' r]]; [| |simpl; lia].
  - vm_compute in R. injection R as <-. lia.
  - destruct c as [[] [] [] [] [] [] [] []]; vm_compute in R;
      try discriminate R; injection R as <-; lia.
Qed.

Lemma heading_class_length n :
  String.length (heading_class n) = 15 + String.length (PyStr.decimal n).
Proof. unfold heading_class. now rewrite str_length_app. Qed.

(** C4 fails on the code: the class sought for the children of a node is
    [ctag-heading c0] followed by the number of the next level, so from
    level 9 on it has three digits or more after the [c] ([c010],
    [c011], ...), and a heading whose marker is [c] and two characters, as
    the markers [c01] to [c09] are and [c10] is, is never attached.  On the
    page with ten levels the heading marked [c10] lies in the structural
    parent of the level-9 heading and is not attached: the level-9 node
    comes out as a leaf. *)
Theorem two_digit_marker_not_attached_from_level_9 :
  (forall node level child marker,
     9 <= level ->
     class_ (self child) = Some ["ctag-heading"; marker] ->
     String.length marker = 3 ->
     ~ In child (attached node level))
  /\ In Deep.heading9 (find_all_class [] Deep.page (heading_class 9))
  /\ In Deep.heading10 (descendants (parent_loc Deep.heading9) (parent Deep.heading9))
  /\ attached Deep.heading9 9 = []
  /\ (items ← extract Deep.page;
      Returns (map node_id (find_leaves (AList items)))) = Returns ["c09"].
Proof.
  split.
  - intros node level child marker Hl Hc Hm Hin.
    apply attached_in in Hin as [_ Hin].
    pose proof (decimal_two_digits (level + 1) ltac:(lia)) as Hd.
    pose proof (heading_class_length (level + 1)) as Hlen.
    unfold class_matches in Hin. rewrite Hc in Hin.
    apply orb_true_iff in Hin as [Hin|Hin].
    + apply existsb_exists in Hin as (tok & Htok & Heq). apply String.eqb_eq in Heq.
      rewrite Heq in Hlen.
      destruct Htok as [<-|[<-|[]]]; simpl in Hlen; lia.
    + apply String.eqb_eq in Hin. apply (f_equal String.length) in Hin.
      rewrite Hlen in Hin. cbn [PyStr.join String.concat] in Hin.
      rewrite !str_length_app in Hin. simpl in Hin. lia.
  - split; [vm_compute; now left|].
    split; [vm_compute; right; right; now left|].
    split; vm_compute; reflexivity.
Qed.

(** ** The summary never runs out of steps *)

Lemma get_string_by_id_returns soup tag i :
  get_string_by_id soup tag i
  = Returns match find_name_id [] soup tag i with
            | Some n => PyStr.str_opt (string_of (self n))
            | None => ""
            end.
Proof.
  unfold get_string_by_id. now destruct (find_name_id [] soup tag i).
Qed.

Lemma get_fa_details_returns soup :
  get_fa_details soup
  = Returns (<["collection_number" :=
                 match find_name_id [] soup "h2" "collection-number" with
                 | Some n => PyStr.str_opt (string_of (self n))
                 | None => ""
                 end]>
             (<["title" :=
                  match find_name_id [] soup "h1" "contentrow" with
                  | Some n => PyStr.str_opt (string_of (self n))
                  | None => ""
                  end]> ∅)).
Proof. unfold get_fa_details. now rewrite !get_string_by_id_returns. Qed.



(** ** C5: a heading without [id] *)







(** ** C6: digitised nodes and their first page *)

Lemma is_digitised_iff node :
  is_digitised node = true <-> carries_marker (parent node).
Proof.
  unfold is_digitised, carries_marker. destruct (class_ (parent node)) as [toks|].
  - rewrite existsb_exists. split.
    + intros (tok & Hin & Heq). apply String.eqb_eq in Heq. subst tok. now exists toks.
    + intros (toks' & [= <-] & Hin). exists "image-and-title".
      split; [exact Hin | apply String.eqb_refl].
  - split; [discriminate | now intros (toks & ? & _)].
Qed.

(** C6: a node that has its [id] and whose children are extracted is
    produced whatever the images of its parent are; it is digitised
    exactly when its structural parent carries the class
    [image-and-title]; and when it is digitised its first page is the
    [data-pid] of the first thumbnail image below the parent, the empty
    string when that image has no [data-pid], and [None] when there is no
    thumbnail image. *)
Theorem digitised_and_first_page fuel node level i cs :
  attr_get "id" (attrs (self node)) = Some i ->
  get_children fuel node level = Returns cs ->
  exists d,
    extract_node_details (S fuel) node level = Returns d
    /\ node_id d = i /\ children d = cs
    /\ (digitised d = true <-> carries_marker (parent node))
    /\ (digitised d = true ->
        match thumbnail node with
        | Some img =>
            match attr_get "data-pid" (attrs (self img)) with
            | Some pid => first_page d = Some pid
            | None => first_page d = Some ""
            end
        | None => first_page d = None
        end)
    /\ (digitised d = false -> first_page d = Some "").
Proof.
  intros Hid Hcs. rewrite extract_node_details_S. unfold attr_item.
  rewrite Hid, Hcs. cbn [mbind outcome_bind].
  unfold get_first_page, thumbnail, attr_item.
  destruct (is_digitised node) eqn:Hdig.
  - destruct (find_name_class _ _ _ _) as [img|]; cbn [mbind outcome_bind].
    + destruct (attr_get "data-pid" (attrs (self img))) as [pid|];
        cbn [mbind outcome_bind try_except_KeyError];
        eexists; (split; [reflexivity|]); cbn [node_id children digitised first_page];
        rewrite <- is_digitised_iff, Hdig; repeat split; auto; discriminate.
    + eexists; (split; [reflexivity|]); cbn [node_id children digitised first_page].
      rewrite <- is_digitised_iff, Hdig. repeat split; auto; discriminate.
  - cbn [mbind outcome_bind].
    eexists; (split; [reflexivity|]); cbn [node_id children digitised first_page].
    rewrite <- is_digitised_iff, Hdig. repeat split; auto; discriminate.
Qed.

(** The item of the nested page: digitised, first page [nla.obj-999]. *)
Lemma digitised_and_first_page_witness :
  attr_get "id" (attrs (self Sample.nested_item)) = Some "i1"
  /\ get_children 1 Sample.nested_item 2 = Returns []
  /\ exists d,
       extract_node_details 2 Sample.nested_item 2 = Returns d
       /\ node_id d = "i1" /\ children d = []
       /\ (digitised d = true <-> carries_marker (parent Sample.nested_item))
       /\ (digitised d = true ->
           match thumbnail Sample.nested_item with
           | Some img =>
               match attr_get "data-pid" (attrs (self img)) with
               | Some pid => first_page d = Some pid
               | None => first_page d = Some ""
               end
           | None => first_page d = None
           end)
       /\ (digitised d = false -> first_page d = Some "").
Proof.
  split; [reflexivity|]. split; [vm_compute; reflexivity|].
  apply (digitised_and_first_page 1 Sample.nested_item 2 "i1" []);
    [reflexivity | vm_compute; reflexivity].
Defined.

Example first_page_of_nested_item :
  extract_node_details 2 Sample.nested_item 2
  = Returns (mkDetails "i1" "Item 1_1" "" true (Some "nla.obj-999") []).
Proof. vm_compute. reflexivity. Qed.

Example first_page_without_thumbnail :
  extract_node_details 2 Digitised.bare 2
  = Returns (mkDetails "i1" "Item 1_1" "" true None []).
Proof. vm_compute. reflexivity. Qed.

Example first_page_without_pid :
  extract_node_details 2 Digitised.unnumbered 2
  = Returns (mkDetails "i1" "Item 1_1" "" true (Some "") []).
Proof. vm_compute. reflexivity. Qed.

(** ** C7: labels without a value, and the fallback *)

(** A label with no [<dd>] among its next siblings stops the loop. *)
Lemma summary_loop_label_without_value labels label :
  In label labels -> find_sibling_tag label "dd" = None ->
  forall acc, summary_loop labels acc = Raises AttributeError.
Proof.
  induction labels as [|l r IH]; intros Hin Hnone acc; [destruct Hin|].
  simpl. destruct Hin as [->|Hin].
  - now rewrite Hnone.
  - destruct (find_sibling_tag l "dd"); simpl; [now apply IH | reflexivity].
Qed.

Lemma label_without_value_raises soup head summary label :
  find_id [] soup "collection-summary" = Some head ->
  find_sibling_tag head "dl" = Some summary ->
  In label (find_all_name (loc summary) (self summary) "dt") ->
  find_sibling_tag label "dd" = None ->
  get_fa_summary soup = Raises AttributeError.
Proof.
  intros Hh Hs Hl Hv. unfold get_fa_summary. rewrite Hh, Hs. simpl.
  now apply (summary_loop_label_without_value _ label).
Qed.

(** The fallback never raises, and a field whose element is missing is
    the empty string. *)
Lemma fallback_never_fails soup :
  exists t c,
    get_fa_details soup = Returns (<["collection_number" := c]> (<["title" := t]> ∅))
    /\ (find_name_id [] soup "h1" "contentrow" = None -> t = "")
    /\ (find_name_id [] soup "h2" "collection-number" = None -> c = "").
Proof.
  rewrite get_fa_details_returns. eexists _, _. split; [reflexivity|].
  split; intros ->; reflexivity.
Qed.

(** C7, the code against the claim: on a summary list whose last label
    has no value after it the label is not skipped; [find_sibling_tag]
    returns [None] and the call of [get_text] on it raises, in the summary
    and so in the conversion. *)
Theorem label_without_value_is_not_skipped :
  get_fa_summary Summary.dangling_label = Raises AttributeError
  /\ convert_finding_aid Summary.dangling_label = Raises AttributeError.
Proof. split; vm_compute; reflexivity. Qed.

(** ** C9: paragraphs in the description *)

Lemma text_fragments_app a b :
  text_fragments (a ++ b) = text_fragments a ++ text_fragments b.
Proof.
  induction a as [|e r IH]; simpl; [reflexivity|].
  destruct e as [pl s|c].
  - destruct (String.eqb (PyStr.strip s) ""); [exact IH | now rewrite IH].
  - destruct (String.eqb (name c) "p"); [now rewrite IH | exact IH].
Qed.

Lemma description_is_get_text fuel node level d :
  extract_node_details fuel node level = Returns d -> description d = get_text node.
Proof.
  destruct fuel as [|fuel]; [discriminate|]. rewrite extract_node_details_S.
  destruct (attr_item "id" (self node)) as [i| |]; try discriminate.
  destruct (first_page_step_returns node) as [fp ->]. cbn [mbind outcome_bind].
  destruct (get_children fuel node level) as [cs| |]; try discriminate.
  now intros [= <-].
Qed.

(** C9: a [<p>] child of the structural parent whose [.string] is [None]
    contributes the text [None] to the description, at its place among
    the fragments. *)
Theorem paragraph_without_string_reads_None fuel node level d pre p post :
  extract_node_details fuel node level = Returns d ->
  contents (parent node) = pre ++ TagElement p :: post ->
  name p = "p" ->
  string_of p = None ->
  description d
  = PyStr.join PyStr.nl (text_fragments pre ++ "None" :: text_fragments post).
Proof.
  intros Hd Hcs Hp Hs. rewrite (description_is_get_text _ _ _ _ Hd).
  unfold get_text. rewrite Hcs, text_fragments_app. simpl.
  now rewrite Hp, Hs.
Qed.

Lemma paragraph_without_string_reads_None_witness :
  extract_node_details 3 Sample.nested_series 1 = Returns Sample.nested_series_details
  /\ description Sample.nested_series_details
     = PyStr.join PyStr.nl
         (text_fragments [ TagElement (Sample.heading "c01" "s1" "Series 1. Test");
                           Sample.text " About the series " ]
          ++ "None" :: text_fragments [TagElement Sample.item_wrapper]).
Proof.
  assert (H : extract_node_details 3 Sample.nested_series 1
              = Returns Sample.nested_series_details) by (vm_compute; reflexivity).
  split; [exact H|].
  exact (paragraph_without_string_reads_None 3 Sample.nested_series 1
           Sample.nested_series_details
           [ TagElement (Sample.heading "c01" "s1" "Series 1. Test");
             Sample.text " About the series " ]
           (mkTag "p" None []
              [Sample.text "Letters, "; Sample.element "em" None [] [Sample.text "1900"]])
           [TagElement Sample.item_wrapper]
           H eq_refl eq_refl eq_refl).
Defined.

(** ** C10: when the fallback is used *)

(** C10: the summary of a converted page is the mapping read from the
    summary region exactly when that mapping has the key [title];
    otherwise it is the fallback, a mapping with the keys [title] and
    [collection_number] only, whatever pairs the region gave. *)
Theorem fallback_iff_no_title soup r :
  convert_finding_aid soup = Returns r ->
  exists (summary_data : gmap string string) items,
    get_fa_summary soup = Returns summary_data
    /\ extract soup = Returns items
    /\ (is_Some (summary_data !! "title") ->
        r = <["items" := Items items]> (Text <$> summary_data))
    /\ (summary_data !! "title" = None ->
        exists details : gmap string string,
          get_fa_details soup = Returns details
          /\ r = <["items" := Items items]> (Text <$> details)
          /\ forall k, k <> "title" -> k <> "collection_number" -> k <> "items" ->
                       r !! k = None).
Proof.
  unfold convert_finding_aid.
  destruct (get_fa_summary soup) as [m| |]; try discriminate.
  cbn [mbind outcome_bind]. rewrite get_fa_details_returns.
  destruct (m !! "title") as [t|] eqn:Ht; cbn [mbind outcome_bind];
    destruct (extract soup) as [items| |]; try discriminate;
    cbn [mbind outcome_bind]; intros [= <-]; exists m, items;
    (split; [reflexivity|]); (split; [reflexivity|]); split.
  - intros _. reflexivity.
  - rewrite Ht. discriminate.
  - rewrite Ht. intros [? [=]].
  - intros _. eexists. split; [reflexivity|]. split; [reflexivity|].
    intros k H1 H2 H3.
    rewrite lookup_insert_ne by congruence.
    rewrite lookup_fmap, !lookup_insert_ne by congruence.
    now rewrite lookup_empty.
Qed.

(** On the page whose summary region has no title the pairs of the region
    are gone from the result. *)
Lemma fallback_iff_no_title_witness :
  convert_finding_aid Summary.untitled = Returns Summary.untitled_result
  /\ exists (summary_data : gmap string string) items,
       get_fa_summary Summary.untitled = Returns summary_data
       /\ extract Summary.untitled = Returns items
       /\ (is_Some (summary_data !! "title") ->
           Summary.untitled_result = <["items" := Items items]> (Text <$> summary_data))
       /\ (summary_data !! "title" = None ->
           exists details : gmap string string,
             get_fa_details Summary.untitled = Returns details
             /\ Summary.untitled_result = <["items" := Items items]> (Text <$> details)
             /\ forall k, k <> "title" -> k <> "collection_number" -> k <> "items" ->
                          Summary.untitled_result !! k = None).
Proof.
  assert (E : convert_finding_aid Summary.untitled = Returns Summary.untitled_result)
    by (vm_compute; reflexivity).
  split; [exact E|].
  exact (fallback_iff_no_title Summary.untitled Summary.untitled_result E).
Defined.

Example untitled_region_pairs :
  (s ← get_fa_summary Summary.untitled; Returns (s !! "extent", s !! "title"))
  = Returns (Some "3 boxes", None).
Proof. vm_compute. reflexivity. Qed.

Example untitled_result_fields :
  Summary.untitled_result !! "extent" = None
  /\ Summary.untitled_result !! "date_range" = None
  /\ Summary.untitled_result !! "title" = Some (Text "Papers of A. Writer")
  /\ Summary.untitled_result !! "collection_number" = Some (Text "").
Proof. repeat split; vm_compute; reflexivity. Qed.

Example titled_region_is_kept :
  (r ← convert_finding_aid Summary.titled;
   Returns (r !! "title", r !! "date_range", r !! "collection_number"))
  = Returns (Some (Text "Papers of A. Writer"), Some (Text "1900-1950"), None).
Proof. vm_compute. reflexivity. Qed.

(** ** C8: the leaves *)

Lemma preorder_unfold n : preorder n = n :: flat_map preorder (children n).
Proof.
  destruct n as [i t d g f cs]. reflexivity.
Qed.

Lemma find_leaves_dict_unfold n :
  find_leaves_dict n
  = if is_leaf n then [n] else flat_map find_leaves_dict (children n).
Proof.
  destruct n as [i t d g f cs]. unfold is_leaf. destruct cs; reflexivity.
Qed.

Lemma find_leaves_list_flat_map l :
  find_leaves_list l = flat_map find_leaves_dict l.
Proof. induction l as [|i r IH]; simpl; [reflexivity | now rewrite IH]. Qed.

Lemma filter_flat_map {A B} (p : B -> bool) (f : A -> list B) l :
  List.filter p (flat_map f l) = flat_map (fun x => List.filter p (f x)) l.
Proof.
  induction l as [|x r IH]; simpl; [reflexivity|].
  now rewrite List.filter_app, IH.
Qed.

Lemma flat_map_ext_Forall {A B} (f g : A -> list B) l :
  List.Forall (fun x => f x = g x) l -> flat_map f l = flat_map g l.
Proof. induction 1 as [|x r Hx _ IH]; simpl; [reflexivity | now rewrite Hx, IH]. Qed.

Lemma find_leaves_dict_preorder n :
  find_leaves_dict n = List.filter is_leaf (preorder n).
Proof.
  induction n as [i t d g f cs IH] using FindingAidNode_nested_ind.
  rewrite find_leaves_dict_unfold, preorder_unfold. cbn [List.filter children].
  rewrite filter_flat_map, <- (flat_map_ext_Forall _ _ _ IH).
  unfold is_leaf. cbn [children]. destruct cs; reflexivity.
Qed.

(** When the page has no heading of the next level below it, nothing is
    attached to a heading found in the page. *)
Lemma nothing_attached soup want b n :
  find_all_class [] soup want = [] -> In n (descendants [] soup) ->
  find_all_class b (parent n) want = [].
Proof.
  intros Hnone Hn.
  destruct (find_all_class b (parent n) want) as [|c l] eqn:E; [reflexivity|].
  assert (Hc : In c (find_all_class b (parent n) want)) by (rewrite E; now left).
  unfold find_all_class in Hc. apply filter_In in Hc as [Hc Hm].
  apply (in_map self) in Hc.
  apply (descendants_of_parent soup [] n b Hn) in Hc.
  apply in_map_iff in Hc as (m & Hs & Hm').
  assert (Hin : In m (find_all_class [] soup want)).
  { unfold find_all_class. apply filter_In. split; [exact Hm' | now rewrite Hs]. }
  rewrite Hnone in Hin. destruct Hin.
Qed.

Lemma for_append_all_return {A B} (f : A -> outcome B) (Q : A -> B -> Prop) xs :
  (forall x, In x xs -> exists y, f x = Returns y /\ Q x y) ->
  exists ys, for_append f xs = Returns ys /\ Forall2 Q xs ys.
Proof.
  induction xs as [|x r IH]; intros H; [exists []; split; [reflexivity | constructor]|].
  destruct (H x) as (y & Hy & Qy); [now left|].
  destruct IH as (ys & Hys & Qys); [intros z Hz; apply H; now right|].
  exists (y :: ys). simpl. rewrite Hy. cbn [mbind outcome_bind]. rewrite Hys.
  split; [reflexivity | now constructor].
Qed.

Lemma find_leaves_of_leaves nodes :
  List.Forall (fun n => children n = []) nodes -> find_leaves (AList nodes) = nodes.
Proof.
  induction 1 as [|n r Hn _ IH]; [reflexivity|].
  cbn [find_leaves find_leaves_list] in *. rewrite IH.
  rewrite find_leaves_dict_unfold. unfold is_leaf. now rewrite Hn.
Qed.

(** C8: [find_leaves] yields the nodes without children, in the pre-order
    of the hierarchy; and a page whose level-1 headings all have their
    [id] and which has no level-2 heading gives one node per level-1
    heading, in the order of the page, each without children, and
    [find_leaves] gives back exactly these nodes. *)
Theorem find_leaves_yields_leaves_in_order (nodes : list FindingAidNode) (soup : Tag) :
  find_all_class [] soup (heading_class 2) = [] ->
  (forall h, In h (find_all_class [] soup "ctag-heading c01") ->
             is_Some (attr_get "id" (attrs (self h)))) ->
  find_leaves (AList nodes) = List.filter is_leaf (flat_map preorder nodes)
  /\ exists items,
       extract soup = Returns items
       /\ Forall2 (fun h n => attr_get "id" (attrs (self h)) = Some (node_id n)
                              /\ children n = [])
                  (find_all_class [] soup "ctag-heading c01") items
       /\ length items = length (find_all_class [] soup "ctag-heading c01")
       /\ find_leaves (AList items) = items.
Proof.
  intros Hflat Hids. split.
  - cbn [find_leaves]. rewrite find_leaves_list_flat_map, filter_flat_map.
    apply flat_map_ext_Forall, List.Forall_forall. intros n _.
    apply find_leaves_dict_preorder.
  - destruct (for_append_all_return
                (fun node => extract_node_details (depth_bound soup) node 1)
                (fun h n => attr_get "id" (attrs (self h)) = Some (node_id n)
                            /\ children n = [])
                (find_all_class [] soup "ctag-heading c01")) as (items & Hi & HQ).
    { intros h Hh. destruct (Hids h Hh) as [i Hid].
      assert (Hd : In h (descendants [] soup)).
      { unfold find_all_class in Hh. now apply filter_In in Hh. }
      unfold depth_bound. rewrite extract_node_details_S, get_children_attached.
      unfold attached. rewrite (nothing_attached soup _ _ h Hflat Hd).
      unfold attr_item. rewrite Hid.
      destruct (first_page_step_returns h) as [fp ->]. cbn.
      eexists. split; [reflexivity|]. now split. }
    exists items. split; [exact Hi|]. split; [exact HQ|].
    split; [symmetry; now apply (Forall2_length _ _ _ HQ)|].
    apply find_leaves_of_leaves.
    clear Hi Hids. induction HQ as [|h n l l' [_ Hn] _ IH]; constructor; assumption.
Qed.

Lemma find_leaves_yields_leaves_in_order_witness :
  find_all_class [] TwoSeries.page (heading_class 2) = []
  /\ (forall h, In h (find_all_class [] TwoSeries.page "ctag-heading c01") ->
                is_Some (attr_get "id" (attrs (self h))))
  /\ find_leaves (AList [Sample.nested_series_details])
     = List.filter is_leaf (flat_map preorder [Sample.nested_series_details])
  /\ exists items,
       extract TwoSeries.page = Returns items
       /\ Forall2 (fun h n => attr_get "id" (attrs (self h)) = Some (node_id n)
                              /\ children n = [])
                  (find_all_class [] TwoSeries.page "ctag-heading c01") items
       /\ length items = length (find_all_class [] TwoSeries.page "ctag-heading c01")
       /\ find_leaves (AList items) = items.
Proof.
  assert (H1 : find_all_class [] TwoSeries.page (heading_class 2) = [])
    by (vm_compute; reflexivity).
  assert (H2 : forall h, In h (find_all_class [] TwoSeries.page "ctag-heading c01") ->
                         is_Some (attr_get "id" (attrs (self h)))).
  { intros h Hh. vm_compute in Hh. destruct Hh as [<-|[<-|[]]]; vm_compute; eauto. }
  split; [exact H1|]. split; [exact H2|].
  exact (find_leaves_yields_leaves_in_order
           [Sample.nested_series_details] TwoSeries.page H1 H2).
Defined.

Example two_series_items :
  extract TwoSeries.page = Returns TwoSeries.items
  /\ find_leaves (AList TwoSeries.items) = TwoSeries.items.
Proof. split; vm_compute; reflexivity. Qed.

Example leaves_of_nested_page :
  find_leaves (AList [Sample.nested_series_details]) = [Sample.nested_item_details].
Proof. reflexivity. Qed.

(** ** C2 and C3: the paths to the leaves *)

Lemma get_paths_unfold node titles :
  get_paths node titles =
  (_ ⇐ Store.append titles (title node);
   match children node with
   | [] =>
       context ⇐ Store.copy titles;
       context ⇐ pop_value context;
       titles' ⇐ Store.new_list;
       Store.ret [mkPath (node_id node) (title node) (PyStr.join " / " context)]
   | _ => get_paths_each (fun i => get_paths i titles) titles (children node) []
   end).
Proof. destruct node as [i t d g f cs]. destruct cs; reflexivity. Qed.

Lemma leaves_with_ancestors_unfold anc node :
  leaves_with_ancestors anc node
  = if is_leaf node then [(anc, node)]
    else flat_map (leaves_with_ancestors (anc ++ [node])) (children node).
Proof. destruct node as [i t d g f cs]. destruct cs; reflexivity. Qed.

Lemma map_flat_map {A B C} (f : B -> C) (g : A -> list B) l :
  map f (flat_map g l) = flat_map (fun x => map f (g x)) l.
Proof.
  induction l as [|x r IH]; simpl; [reflexivity | now rewrite map_app, IH].
Qed.

(** *** The store *)

Lemma read_insert_eq r v (σ : Store.store) :
  r < length σ -> Store.read r (<[r := v]> σ) = v.
Proof. intros H. unfold Store.read. now rewrite list_lookup_insert_eq. Qed.

Lemma read_app_l r (σ τ : Store.store) :
  r < length σ -> Store.read r (σ ++ τ) = Store.read r σ.
Proof. intros H. unfold Store.read. now rewrite lookup_app_l. Qed.

Lemma pop_value_snoc l x σ : pop_value (l ++ [x]) σ = Returns (l, σ).
Proof.
  unfold pop_value. rewrite removelast_last. now destruct l.
Qed.

Lemma pop_snoc r l x σ :
  Store.read r σ = l ++ [x] -> Store.pop r σ = Returns (tt, <[r := l]> σ).
Proof.
  intros H. unfold Store.pop. rewrite H, removelast_last. now destruct l.
Qed.

Lemma get_paths_each_spec cs :
  List.Forall get_paths_does cs ->
  forall anc paths r (σ : Store.store),
    r < length σ -> Store.read r σ = map title anc ->
    exists σ' : Store.store,
      get_paths_each (fun i => get_paths i r) r cs paths σ
      = Returns (paths ++ flat_map (fun j => map path_record (leaves_with_ancestors anc j)) cs,
                 σ')
      /\ Store.read r σ' = map title anc
      /\ length σ <= length σ'
      /\ forall r', r' < length σ -> r' <> r -> σ' !! r' = σ !! r'.
Proof.
  induction 1 as [|j rest Hj _ IH]; intros anc paths r σ Hr Hread.
  - exists σ. simpl. unfold Store.ret. rewrite app_nil_r. auto.
  - destruct (Hj anc r σ Hr Hread) as (σ1 & E1 & R1 & L1 & O1).
    cbn [get_paths_each]. unfold Store.bind at 1. rewrite E1.
    rewrite map_app in R1. cbn [map] in R1.
    unfold Store.bind at 1. rewrite (pop_snoc r _ _ σ1 R1).
    set (σ2 := <[r := map title anc]> σ1).
    assert (L2 : length σ2 = length σ1) by apply length_insert.
    destruct (IH anc (paths ++ map path_record (leaves_with_ancestors anc j)) r σ2)
      as (σ' & E & R & L & O).
    { lia. }
    { apply read_insert_eq. lia. }
    exists σ'. rewrite E. cbn [flat_map]. rewrite <- app_assoc.
    split; [reflexivity|]. split; [exact R|]. split; [lia|].
    intros r' Hr' Hne. rewrite O by lia.
    unfold σ2. rewrite list_lookup_insert_ne by congruence. now apply O1.
Qed.

Lemma get_paths_spec node : get_paths_does node.
Proof.
  induction node as [i t d g f cs IH] using FindingAidNode_nested_ind.
  intros anc r σ Hr Hread. rewrite get_paths_unfold, leaves_with_ancestors_unfold.
  unfold Store.bind at 1, Store.append. cbn [title children node_id].
  set (σ0 := <[r := Store.read r σ ++ [t]]> σ).
  assert (L0 : length σ0 = length σ) by apply length_insert.
  assert (R0 : Store.read r σ0 = map title (anc ++ [mkDetails i t d g f cs])).
  { unfold σ0. rewrite read_insert_eq by exact Hr.
    rewrite Hread, map_app. reflexivity. }
  assert (O0 : forall r', r' <> r -> σ0 !! r' = σ !! r').
  { intros r' Hne. unfold σ0. now rewrite list_lookup_insert_ne by congruence. }
  destruct cs as [|c cs].
  - unfold is_leaf. cbn [children].
    unfold Store.bind, Store.copy. rewrite R0, map_app. cbn [map title].
    rewrite pop_value_snoc. unfold Store.new_list, Store.ret.
    exists (σ0 ++ [[]]). split; [reflexivity|].
    split; [rewrite read_app_l by lia; now rewrite R0, map_app|].
    split; [rewrite length_app; lia|].
    intros r' Hr' Hne. rewrite lookup_app_l by lia. now apply O0.
  - unfold is_leaf. cbn [children].
    destruct (get_paths_each_spec (c :: cs) IH (anc ++ [mkDetails i t d g f (c :: cs)])
                [] r σ0) as (σ' & E & R & L & O); [lia | exact R0 |].
    exists σ'. rewrite E, map_flat_map. cbn [app].
    split; [reflexivity|]. split; [exact R|]. split; [lia|].
    intros r' Hr' Hne. rewrite O by lia. now apply O0.
Qed.

Lemma paths_loop_spec items : forall paths (σ : Store.store),
  exists σ' : Store.store,
    paths_loop items paths σ
    = Returns (paths ++ flat_map (fun s => map path_record (leaves_with_ancestors [] s)) items,
               σ')
    /\ length σ <= length σ'
    /\ forall r, r < length σ -> σ' !! r = σ !! r.
Proof.
  induction items as [|series rest IH]; intros paths σ.
  - exists σ. simpl. unfold Store.ret. rewrite app_nil_r. auto.
  - cbn [paths_loop]. unfold Store.bind at 1, Store.new_list.
    destruct (get_paths_spec series [] (length σ) (σ ++ [[]]))
      as (σ1 & E1 & _ & L1 & O1).
    { rewrite length_app. simpl. lia. }
    { unfold Store.read. now rewrite list_lookup_middle. }
    unfold Store.bind at 1. rewrite E1.
    destruct (IH (paths ++ map path_record (leaves_with_ancestors [] series)) σ1)
      as (σ' & E & L & O).
    rewrite length_app in L1. simpl in L1.
    exists σ'. rewrite E. cbn [flat_map]. rewrite <- app_assoc.
    split; [reflexivity|]. split; [lia|].
    intros r Hr. rewrite O by lia. rewrite O1 by (rewrite ?length_app; simpl; lia).
    now apply lookup_app_l.
Qed.

Lemma leaves_with_ancestors_chain node : forall anc al,
  In al (leaves_with_ancestors anc node) ->
  exists path, fst al = anc ++ path /\ Chain node path (snd al).
Proof.
  induction node as [i t d g f cs IH] using FindingAidNode_nested_ind.
  intros anc al. rewrite leaves_with_ancestors_unfold. unfold is_leaf. cbn [children].
  destruct cs as [|c cs].
  - intros [<-|[]]. exists []. split; [now rewrite app_nil_r | now constructor].
  - intros Hin. apply in_flat_map in Hin as (j & Hj & Hal).
    rewrite List.Forall_forall in IH.
    destruct (IH j Hj _ _ Hal) as (path & Hp & Hc).
    exists (mkDetails i t d g f (c :: cs) :: path). split.
    + now rewrite Hp, <- app_assoc.
    + now apply (Chain_down _ j).
Qed.

Lemma leaves_with_ancestors_leaves node : forall anc,
  map snd (leaves_with_ancestors anc node) = find_leaves_dict node.
Proof.
  induction node as [i t d g f cs IH] using FindingAidNode_nested_ind.
  intros anc. rewrite leaves_with_ancestors_unfold, find_leaves_dict_unfold.
  destruct (is_leaf _); [reflexivity|]. cbn [children].
  rewrite map_flat_map. apply flat_map_ext_Forall.
  revert IH. apply List.Forall_impl. intros j Hj. apply Hj.
Qed.

Lemma paths_of_series_spec series :
  paths_of_series series = map path_record (leaves_with_ancestors [] series).
Proof.
  unfold paths_of_series, build_paths.
  destruct (paths_loop_spec [series] [] Store.initial) as (σ' & -> & _).
  cbn [flat_map app]. now rewrite app_nil_r.
Qed.

(** C2: [build_paths] returns, in the order of [find_leaves], one record
    per leaf, with the id and the title of the leaf, and as context the
    titles, joined by [" / "], of the chain of nodes that leads from a
    top-level series down to the parent of the leaf. *)
Theorem build_paths_one_record_per_leaf items (σ : Store.store) :
  (exists σ' : Store.store,
     build_paths items σ
     = Returns (map path_record (flat_map (leaves_with_ancestors []) items), σ'))
  /\ map snd (flat_map (leaves_with_ancestors []) items) = find_leaves (AList items)
  /\ List.Forall (fun al => exists series,
                    In series items /\ Chain series (fst al) (snd al))
                 (flat_map (leaves_with_ancestors []) items).
Proof.
  split; [|split].
  - destruct (paths_loop_spec items [] σ) as (σ' & E & _).
    exists σ'. unfold build_paths. rewrite E. cbn [app]. now rewrite map_flat_map.
  - cbn [find_leaves]. rewrite find_leaves_list_flat_map, map_flat_map.
    apply flat_map_ext_Forall, List.Forall_forall. intros n _.
    apply leaves_with_ancestors_leaves.
  - apply List.Forall_forall. intros al Hal.
    apply in_flat_map in Hal as (series & Hs & Hal).
    destruct (leaves_with_ancestors_chain series [] al Hal) as (path & Hp & Hc).
    exists series. split; [exact Hs|]. now rewrite Hp.
Qed.

(** C3: from any store, whatever earlier calls left in it, [build_paths]
    returns the same paths when it is run again on the same hierarchy;
    the lists that were in the store before, the list of the default
    argument among them, are as they were; and the paths are those of
    each series taken alone, one series after the other. *)
Theorem build_paths_twice_same items (σ : Store.store) :
  exists paths (σ1 σ2 : Store.store),
    build_paths items σ = Returns (paths, σ1)
    /\ build_paths items σ1 = Returns (paths, σ2)
    /\ (forall r, r < length σ -> σ1 !! r = σ !! r /\ σ2 !! r = σ !! r)
    /\ paths = flat_map paths_of_series items.
Proof.
  unfold build_paths.
  destruct (paths_loop_spec items [] σ) as (σ1 & E1 & L1 & O1).
  destruct (paths_loop_spec items [] σ1) as (σ2 & E2 & L2 & O2).
  eexists _, σ1, σ2. split; [exact E1|]. split; [exact E2|]. split.
  - intros r Hr. split; [now apply O1|]. rewrite O2 by lia. now apply O1.
  - cbn [app]. apply flat_map_ext_Forall, List.Forall_forall. intros s _.
    symmetry. apply paths_of_series_spec.
Qed.

(** The lists of titles are shared: a call that leaves [titles] to its
    default finds, the second time, the title the first call left there. *)
Example default_titles_are_shared :
  let leaf := mkDetails "i1" "Item 1_1" "" false (Some "") [] in
  (p1 ⇐ get_paths_default leaf; p2 ⇐ get_paths_default leaf; Store.ret (p1, p2))
    Store.initial
  = Returns (([mkPath "i1" "Item 1_1" ""], [mkPath "i1" "Item 1_1" "Item 1_1"]),
             [["Item 1_1"; "Item 1_1"]; []; []]).
Proof. vm_compute. reflexivity. Qed.

Example paths_of_nested_page :
  build_paths [Sample.nested_series_details] Store.initial
  = Returns ([mkPath "i1" "Item 1_1" "Series 1. Test"], [[]; ["Series 1. Test"]; []]).
Proof. vm_compute. reflexivity. Qed.

(** * Further properties of the conversion *)

(** ** [find_sibling_tag] *)

Lemma first_tag_from_spec base par tag cs : forall j0,
  match first_tag_from base par j0 cs tag with
  | Some sib =>
      exists k t,
        cs !! k = Some (TagElement t) /\ name t = tag
        /\ sib = mkNode (base ++ [j0 + k]) par t
        /\ forall k' t', k' < k -> cs !! k' = Some (TagElement t') -> name t' <> tag
  | None => forall k t, cs !! k = Some (TagElement t) -> name t <> tag
  end.
Proof.
  induction cs as [|e r IH]; intros j0; cbn [first_tag_from].
  - intros k t H. now rewrite lookup_nil in H.
  - destruct e as [pl s|t0]; cbn [check_tag].
    + specialize (IH (S j0)). destruct (first_tag_from base par (S j0) r tag) as [sib|].
      * destruct IH as (k & t & Hk & Hn & Hs & Hfirst).
        exists (S k), t. split; [exact Hk|]. split; [exact Hn|].
        split; [now replace (j0 + S k) with (S j0 + k) by lia|].
        intros [|k'] t' Hlt H; [discriminate|]. apply (Hfirst k' t'); [lia | exact H].
      * intros [|k] t H; [discriminate | now apply (IH k t)].
    + destruct (String.eqb (name t0) tag) eqn:E.
      * apply String.eqb_eq in E. exists 0, t0. split; [reflexivity|].
        split; [exact E|]. split; [now rewrite Nat.add_0_r|]. intros k' t' Hlt. lia.
      * apply String.eqb_neq in E. specialize (IH (S j0)).
        destruct (first_tag_from base par (S j0) r tag) as [sib|].
        -- destruct IH as (k & t & Hk & Hn & Hs & Hfirst).
           exists (S k), t. split; [exact Hk|]. split; [exact Hn|].
           split; [now replace (j0 + S k) with (S j0 + k) by lia|].
           intros [|k'] t' Hlt H; [now injection H as <- | ].
           apply (Hfirst k' t'); [lia | exact H].
        -- intros [|k] t H; [now injection H as <- | now apply (IH k t)].
Qed.

(** [find_sibling_tag] returns the first tag with the wanted name among
    the siblings after the node, as a reference to a child of the same
    parent; it returns [None] exactly when no later sibling is such a
    tag.  It never returns the node itself or a sibling before it. *)
Theorem find_sibling_tag_first_later_sibling node tag :
  match find_sibling_tag node tag with
  | Some sib =>
      exists j t,
        sibling_index node < j
        /\ contents (parent node) !! j = Some (TagElement t)
        /\ name t = tag
        /\ sib = mkNode (parent_loc node ++ [j]) (parent node) t
        /\ forall k t', sibling_index node < k < j ->
                        contents (parent node) !! k = Some (TagElement t') ->
                        name t' <> tag
  | None =>
      forall k t, sibling_index node < k ->
                  contents (parent node) !! k = Some (TagElement t) -> name t <> tag
  end.
Proof.
  unfold find_sibling_tag, next_siblings. fold (sibling_index node).
  pose proof (first_tag_from_spec (parent_loc node) (parent node) tag
                (drop (S (sibling_index node)) (contents (parent node)))
                (S (sibling_index node))) as H.
  destruct (first_tag_from _ _ _ _ _) as [sib|].
  - destruct H as (k & t & Hk & Hn & Hs & Hfirst).
    exists (S (sibling_index node) + k), t. rewrite lookup_drop in Hk.
    split; [lia|]. split; [exact Hk|]. split; [exact Hn|]. split; [exact Hs|].
    intros k' t' Hlt Hk'.
    apply (Hfirst (k' - S (sibling_index node)) t'); [lia|].
    rewrite lookup_drop. now replace (S (sibling_index node) + (k' - S (sibling_index node)))
      with k' by lia.
  - intros k t Hlt Hk.
    apply (H (k - S (sibling_index node)) t). rewrite lookup_drop.
    now replace (S (sibling_index node) + (k - S (sibling_index node))) with k by lia.
Qed.

Lemma first_tag_from_skip base par tag pre post : forall j0,
  (forall k t, pre !! k = Some (TagElement t) -> name t <> tag) ->
  first_tag_from base par j0 (pre ++ post) tag
  = first_tag_from base par (j0 + length pre) post tag.
Proof.
  induction pre as [|e r IH]; intros j0 H; cbn [app length first_tag_from].
  - now rewrite Nat.add_0_r.
  - assert (Hr : forall k t, r !! k = Some (TagElement t) -> name t <> tag).
    { intros k t Hk. now apply (H (S k) t). }
    replace (j0 + S (length r)) with (S j0 + length r) by lia.
    destruct e as [pl s|t0]; [now apply IH|]. cbn [check_tag].
    destruct (String.eqb (name t0) tag) eqn:E; [|now apply IH].
    apply String.eqb_eq in E. now destruct (H 0 t0 eq_refl).
Qed.

(** Two children of one parent with no tag of the wanted name from the
    first to the second, the second included, have the same next sibling
    of that name: in a summary list a label that is followed by another
    label before any value gets the value of that other label. *)
Theorem find_sibling_tag_shared a b tag :
  parent a = parent b ->
  parent_loc a = parent_loc b ->
  sibling_index a <= sibling_index b ->
  no_tag_between tag (contents (parent a)) (sibling_index a) (sibling_index b) ->
  find_sibling_tag a tag = find_sibling_tag b tag.
Proof.
  intros Hp Hl Hle Hno. unfold find_sibling_tag, next_siblings.
  fold (sibling_index a) (sibling_index b). rewrite <- Hp, <- Hl.
  set (cs := contents (parent a)) in *. set (i := sibling_index a) in *.
  set (j := sibling_index b) in *.
  replace (drop (S i) cs) with (take (j - i) (drop (S i) cs) ++ drop (S j) cs).
  2:{ replace (drop (S j) cs) with (drop (j - i) (drop (S i) cs))
        by (rewrite drop_drop; f_equal; lia).
      apply take_drop. }
  rewrite first_tag_from_skip.
  - destruct (decide (S j <= length cs)) as [Hin|Hout].
    + rewrite length_take, length_drop. f_equal. lia.
    + rewrite (drop_ge cs (S j)) by lia. now destruct (S i + _).
  - intros k t Hk. apply lookup_take_Some in Hk as [Hk Hlt].
    rewrite lookup_drop in Hk. apply (Hno (S i + k) t); [lia | exact Hk].
Qed.

Lemma find_sibling_tag_shared_witness :
  parent Pairs.extent = parent Pairs.date_range
  /\ parent_loc Pairs.extent = parent_loc Pairs.date_range
  /\ sibling_index Pairs.extent <= sibling_index Pairs.date_range
  /\ no_tag_between "dd" (contents (parent Pairs.extent))
                    (sibling_index Pairs.extent) (sibling_index Pairs.date_range)
  /\ find_sibling_tag Pairs.extent "dd" = find_sibling_tag Pairs.date_range "dd".
Proof.
  assert (H : no_tag_between "dd" (contents (parent Pairs.extent))
                (sibling_index Pairs.extent) (sibling_index Pairs.date_range)).
  { intros k t Hk. assert (E : k = 3) by (vm_compute in Hk; lia). subst k.
    vm_compute. intros [= <-]. discriminate. }
  split; [reflexivity|]. split; [reflexivity|]. split; [vm_compute; lia|].
  split; [exact H|].
  exact (find_sibling_tag_shared Pairs.extent Pairs.date_range "dd"
           eq_refl eq_refl (le_S _ _ (le_n _)) H).
Defined.

(** ** [get_fa_summary] *)

Lemma find_snoc {A} (p : A -> bool) l x :
  List.find p (l ++ [x])
  = match List.find p l with
    | Some y => Some y
    | None => if p x then Some x else None
    end.
Proof.
  induction l as [|y r IH]; simpl; [reflexivity|]. now destruct (p y).
Qed.

Lemma summary_loop_lookup labels : forall (acc m : gmap string string),
  summary_loop labels acc = Returns m ->
  forall k, m !! k = match last_label k labels with
                     | Some l => label_value l
                     | None => acc !! k
                     end.
Proof.
  induction labels as [|l r IH]; intros acc m Hm k.
  - injection Hm as <-. reflexivity.
  - cbn [summary_loop] in Hm. unfold last_label. cbn [rev]. rewrite find_snoc.
    fold (last_label k r).
    destruct (find_sibling_tag l "dd") as [v|] eqn:Hv; [|discriminate].
    cbn [deref mbind outcome_bind] in Hm. rewrite (IH _ _ Hm k).
    destruct (last_label k r); [reflexivity|].
    destruct (String.eqb (label_key l) k) eqn:E.
    + apply String.eqb_eq in E. subst k. rewrite lookup_insert_eq.
      unfold label_value. now rewrite Hv.
    + apply String.eqb_neq in E. now rewrite lookup_insert_ne.
Qed.

Lemma summary_loop_returns labels : forall acc : gmap string string,
  forallb has_value labels = true -> exists m, summary_loop labels acc = Returns m.
Proof.
  induction labels as [|l r IH]; intros acc H; [now exists acc|].
  cbn [forallb] in H. apply andb_true_iff in H as [Hl Hr].
  cbn [summary_loop]. unfold has_value in Hl.
  destruct (find_sibling_tag l "dd") as [v|]; [|discriminate].
  cbn [deref mbind outcome_bind]. now apply IH.
Qed.

Lemma last_label_Some k labels l :
  last_label k labels = Some l -> In l labels /\ label_key l = k.
Proof.
  unfold last_label. intros H. apply find_some in H as [Hin Hk].
  split; [now apply in_rev | now apply String.eqb_eq].
Qed.

Lemma last_label_None k labels :
  last_label k labels = None -> forall l, In l labels -> label_key l <> k.
Proof.
  unfold last_label. intros H l Hl. apply in_rev in Hl.
  apply (find_none _ _ H) in Hl. now apply String.eqb_neq.
Qed.

(** What [get_fa_summary] gives, case by case: without an element with
    the id [collection-summary] the empty mapping; with it but without a
    [<dl>] among its next siblings, or with a label in the list that has
    no [<dd>] among its next siblings, [AttributeError]; otherwise a
    mapping whose keys are exactly the normalised labels of the list. *)
Theorem get_fa_summary_outcome soup :
  match find_id [] soup "collection-summary" with
  | None => get_fa_summary soup = Returns ∅
  | Some head =>
      match find_sibling_tag head "dl" with
      | None => get_fa_summary soup = Raises AttributeError
      | Some summary =>
          if forallb has_value (find_all_name (loc summary) (self summary) "dt")
          then exists m : gmap string string,
                 get_fa_summary soup = Returns m
                 /\ forall k, is_Some (m !! k)
                              <-> exists l,
                                    In l (find_all_name (loc summary) (self summary) "dt")
                                    /\ label_key l = k
          else get_fa_summary soup = Raises AttributeError
      end
  end.
Proof.
  unfold get_fa_summary.
  destruct (find_id [] soup "collection-summary") as [head|]; [|reflexivity].
  destruct (find_sibling_tag head "dl") as [summary|]; [|reflexivity].
  cbn [deref mbind outcome_bind].
  set (labels := find_all_name (loc summary) (self summary) "dt").
  destruct (forallb has_value labels) eqn:Hall.
  - destruct (summary_loop_returns labels ∅ Hall) as [m Hm].
    exists m. split; [exact Hm|]. intros k.
    rewrite (summary_loop_lookup labels ∅ m Hm k). split.
    + destruct (last_label k labels) as [l|] eqn:Hl.
      * intros _. exists l. now apply last_label_Some.
      * rewrite lookup_empty. now intros [? [=]].
    + intros (l & Hin & Hk). destruct (last_label k labels) as [l'|] eqn:Hl.
      * apply last_label_Some in Hl as [Hin' _].
        rewrite forallb_forall in Hall. specialize (Hall l' Hin').
        unfold has_value in Hall. unfold label_value.
        destruct (find_sibling_tag l' "dd"); [now eexists | discriminate].
      * now destruct (last_label_None k labels Hl l Hin).
  - assert (Hex : exists l, In l labels /\ find_sibling_tag l "dd" = None).
    { clear -Hall. induction labels as [|l r IH]; [discriminate|].
      cbn [forallb] in Hall. apply andb_false_iff in Hall as [H|H].
      - exists l. split; [now left|]. unfold has_value in H.
        now destruct (find_sibling_tag l "dd").
      - destruct (IH H) as (l' & Hin & Hn). exists l'. split; [now right | exact Hn]. }
    destruct Hex as (l & Hin & Hn).
    now apply (summary_loop_label_without_value labels l).
Qed.

(** When two labels of the summary list normalise to the same key the
    value of the later one is kept: the value under a key is the value of
    the last label with that key. *)
Theorem get_fa_summary_last_label_wins soup head summary (m : gmap string string) k :
  find_id [] soup "collection-summary" = Some head ->
  find_sibling_tag head "dl" = Some summary ->
  get_fa_summary soup = Returns m ->
  m !! k = match last_label k (find_all_name (loc summary) (self summary) "dt") with
           | Some l => label_value l
           | None => None
           end.
Proof.
  intros Hh Hs Hm. unfold get_fa_summary in Hm. rewrite Hh, Hs in Hm.
  cbn [deref mbind outcome_bind] in Hm.
  rewrite (summary_loop_lookup _ ∅ m Hm k).
  destruct (last_label k _); [reflexivity | apply lookup_empty].
Qed.

Lemma get_fa_summary_last_label_wins_witness :
  get_fa_summary Pairs.page = Returns Pairs.summary_result
  /\ Pairs.summary_result !! "title" = Some "Second title"
  /\ Pairs.summary_result !! "title"
     = match last_label "title"
               (find_all_name (loc Pairs.summary) (self Pairs.summary) "dt") with
       | Some l => label_value l
       | None => None
       end.
Proof.
  assert (Hm : get_fa_summary Pairs.page = Returns Pairs.summary_result)
    by (vm_compute; reflexivity).
  split; [exact Hm|]. split; [vm_compute; reflexivity|].
  exact (get_fa_summary_last_label_wins Pairs.page
           (mkNode [0] Pairs.page
              (mkTag "h2" None [("id", "collection-summary")]
                 [Sample.text "Collection Summary"]))
           Pairs.summary Pairs.summary_result "title" eq_refl eq_refl Hm).
Defined.

(** ** Trimmed and normalised strings *)

Lemma str_app_nil_l s : "" +:+ s = s.
Proof. reflexivity. Qed.


Lemma str_app_assoc a b c : (a +:+ b) +:+ c = a +:+ (b +:+ c).
Proof.
  induction a as [|x r IH]; [reflexivity|]. now rewrite !str_app_cons, IH.
Qed.

Lemma rev_acc_app s : forall acc, PyStr.rev_acc s acc = PyStr.rev s +:+ acc.
Proof.
  unfold PyStr.rev. induction s as [|c r IH]; intros acc; [reflexivity|].
  cbn [PyStr.rev_acc]. rewrite IH, (IH (String c EmptyString)).
  now rewrite str_app_assoc.
Qed.

Lemma rev_cons c r : PyStr.rev (String c r) = PyStr.rev r +:+ String c "".
Proof. unfold PyStr.rev at 1. cbn [PyStr.rev_acc]. apply rev_acc_app. Qed.



Lemma lstrip_suffix s : exists w, s = w +:+ PyStr.lstrip s.
Proof.
  induction s as [|c r [w Hw]]; [now exists EmptyString|]. cbn [PyStr.lstrip].
  destruct (PyStr.isspace c); [|now exists EmptyString].
  exists (String c w). rewrite str_app_cons. now rewrite <- Hw.
Qed.




Lemma all_chars_app p a b :
  all_chars p (a +:+ b) = all_chars p a && all_chars p b.
Proof.
  induction a as [|c r IH]; [reflexivity|].
  rewrite str_app_cons. cbn [all_chars]. now rewrite IH, andb_assoc.
Qed.

Lemma all_chars_rev p s : all_chars p (PyStr.rev s) = all_chars p s.
Proof.
  induction s as [|c r IH]; [reflexivity|].
  rewrite rev_cons, all_chars_app, IH. cbn [all_chars]. rewrite andb_true_r.
  apply andb_comm.
Qed.

Lemma all_chars_lstrip p s :
  all_chars p s = true -> all_chars p (PyStr.lstrip s) = true.
Proof.
  destruct (lstrip_suffix s) as [w Hw]. intros H. rewrite Hw, all_chars_app in H.
  now apply andb_true_iff in H.
Qed.

Lemma all_chars_strip p s :
  all_chars p s = true -> all_chars p (PyStr.strip s) = true.
Proof.
  intros H. unfold PyStr.strip, PyStr.rstrip.
  rewrite all_chars_rev. apply all_chars_lstrip. rewrite all_chars_rev.
  now apply all_chars_lstrip.
Qed.

Lemma all_chars_map_chars p f s :
  all_chars p (PyStr.map_chars f s) = all_chars (fun c => p (f c)) s.
Proof. induction s as [|c r IH]; simpl; [reflexivity | now rewrite IH]. Qed.

Lemma all_chars_impl (p q : ascii -> bool) s :
  (forall c, p c = true -> q c = true) -> all_chars p s = true -> all_chars q s = true.
Proof.
  intros H. induction s as [|c r IH]; simpl; [reflexivity|].
  intros E. apply andb_true_iff in E as [E1 E2]. now rewrite (H c E1), IH.
Qed.

Lemma all_chars_true p s : (forall c, p c = true) -> all_chars p s = true.
Proof. intros H. induction s as [|c r IH]; simpl; [reflexivity | now rewrite H, IH]. Qed.

Lemma lower_char_not_upper c : is_upper (PyStr.lower_char c) = false.
Proof. destruct c as [[] [] [] [] [] [] [] []]; reflexivity. Qed.

Lemma replace_blank_key_char c :
  is_upper c = false ->
  key_char (if Ascii.eqb c " "%char then "_"%char else c) = true.
Proof.
  intros H. unfold key_char. destruct (Ascii.eqb c " ") eqn:E; [reflexivity|].
  now rewrite E, H.
Qed.

(** The keys of the summary are normalised: the key made from a label has
    no blank and no capital letter, whatever the label is. *)
Theorem label_key_normalised label : all_chars key_char (label_key label) = true.
Proof.
  unfold label_key, PyStr.replace_blank. rewrite all_chars_map_chars.
  apply all_chars_impl with (p := fun c => negb (is_upper c)).
  - intros c Hc. apply replace_blank_key_char. now apply negb_true_iff.
  - apply all_chars_strip. unfold PyStr.lower. rewrite all_chars_map_chars.
    apply all_chars_true. intros c. now rewrite lower_char_not_upper.
Qed.









(** ** [convert_finding_aid] and the headings without [id] *)

(** A converted finding aid always has a title, from the summary region
    or from the fallback, and under [items] the list of the extracted
    series, also when the summary region has a label [Items]. *)
Theorem converted_has_title_and_items soup r :
  convert_finding_aid soup = Returns r ->
  (exists t, r !! "title" = Some (Text t))
  /\ exists items, extract soup = Returns items /\ r !! "items" = Some (Items items).
Proof.
  unfold convert_finding_aid.
  destruct (get_fa_summary soup) as [m| |]; try discriminate.
  cbn [mbind outcome_bind]. rewrite get_fa_details_returns.
  destruct (m !! "title") as [t|] eqn:Ht; cbn [mbind outcome_bind];
    destruct (extract soup) as [items| |]; try discriminate;
    cbn [mbind outcome_bind]; intros [= <-]; split.
  - exists t. rewrite lookup_insert_ne by discriminate. now rewrite lookup_fmap, Ht.
  - exists items. split; [reflexivity | apply lookup_insert_eq].
  - eexists. rewrite lookup_insert_ne by discriminate.
    rewrite lookup_fmap, lookup_insert_ne by discriminate.
    now rewrite lookup_insert_eq.
  - exists items. split; [reflexivity | apply lookup_insert_eq].
Qed.

Lemma converted_has_title_and_items_witness :
  convert_finding_aid Summary.untitled = Returns Summary.untitled_result
  /\ (exists t, Summary.untitled_result !! "title" = Some (Text t))
  /\ exists items, extract Summary.untitled = Returns items
                   /\ Summary.untitled_result !! "items" = Some (Items items).
Proof.
  assert (E : convert_finding_aid Summary.untitled = Returns Summary.untitled_result)
    by (vm_compute; reflexivity).
  split; [exact E|].
  exact (converted_has_title_and_items Summary.untitled Summary.untitled_result E).
Defined.



(** ** [find_leaves] *)

Lemma find_leaves_dict_leaves n :
  List.Forall (fun l => children l = []) (find_leaves_dict n).
Proof.
  rewrite find_leaves_dict_preorder. apply List.Forall_forall. intros l Hl.
  apply filter_In in Hl as [_ Hl]. unfold is_leaf in Hl. now destruct (children l).
Qed.

Lemma find_leaves_list_leaves l :
  List.Forall (fun n => children n = []) (find_leaves_list l).
Proof.
  induction l as [|n r IH]; [constructor|]. cbn [find_leaves_list].
  apply Forall_app. split; [apply find_leaves_dict_leaves | exact IH].
Qed.

Lemma find_leaves_dict_length n : 1 <= length (find_leaves_dict n).
Proof.
  induction n as [i t d g f cs IH] using FindingAidNode_nested_ind.
  rewrite find_leaves_dict_unfold. unfold is_leaf. cbn [children].
  destruct cs as [|c cs]; [simpl; lia|]. cbn [flat_map]. rewrite length_app.
  inversion IH; subst. lia.
Qed.

(** Every node has a leaf below it or is one: [find_leaves] never yields
    fewer nodes than it is given, and nothing only for the empty list. *)
Theorem find_leaves_at_least_one_per_node (l : list FindingAidNode) :
  length l <= length (find_leaves (AList l))
  /\ (find_leaves (AList l) = [] <-> l = []).
Proof.
  assert (H : length l <= length (find_leaves (AList l))).
  { cbn [find_leaves]. induction l as [|n r IH]; [simpl; lia|].
    cbn [find_leaves_list]. rewrite length_app.
    pose proof (find_leaves_dict_length n). simpl. lia. }
  split; [exact H|]. split.
  - intros E. rewrite E in H. destruct l; [reflexivity | simpl in H; lia].
  - now intros ->.
Qed.

(** [find_leaves] goes through a list series by series, and running it on
    its own result changes nothing: the leaves are their own leaves. *)
Theorem find_leaves_compose (a b : list FindingAidNode) :
  find_leaves (AList (a ++ b)) = find_leaves (AList a) ++ find_leaves (AList b)
  /\ find_leaves (AList (find_leaves (AList a))) = find_leaves (AList a).
Proof.
  split.
  - cbn [find_leaves]. rewrite !find_leaves_list_flat_map. apply flat_map_app.
  - apply find_leaves_of_leaves. apply find_leaves_list_leaves.
Qed.

(** ** [get_paths] and the list of titles *)

Lemma leaves_with_ancestors_prefix node : forall anc,
  leaves_with_ancestors anc node
  = map (fun al => (anc ++ fst al, snd al)) (leaves_with_ancestors [] node).
Proof.
  induction node as [i t d g f cs IH] using FindingAidNode_nested_ind.
  intros anc. rewrite !leaves_with_ancestors_unfold.
  destruct (is_leaf _); [cbn; now rewrite app_nil_r|]. cbn [children].
  rewrite map_flat_map. apply flat_map_ext_Forall.
  revert IH. apply List.Forall_impl. intros c Hc.
  rewrite (Hc (anc ++ _)), (Hc ([] ++ _)), map_map. apply map_ext.
  intros [path leaf]. cbn [fst snd app]. now rewrite <- app_assoc.
Qed.

Lemma get_paths_from_any_list node r (σ : Store.store) :
  r < length σ ->
  exists σ' : Store.store,
    get_paths node r σ
    = Returns (map (path_record_after (Store.read r σ)) (leaves_with_ancestors [] node), σ')
    /\ Store.read r σ' = Store.read r σ ++ [title node]
    /\ length σ <= length σ'
    /\ forall r', r' < length σ -> r' <> r -> σ' !! r' = σ !! r'.
Proof.
  intros Hr.
  set (anc := map (fun t => mkDetails "" t "" false None []) (Store.read r σ)).
  assert (Ha : map title anc = Store.read r σ).
  { unfold anc. rewrite map_map. cbn [title]. apply map_id. }
  destruct (get_paths_spec node anc r σ Hr (eq_sym Ha)) as (σ' & E & R & L & O).
  exists σ'. split; [|split; [|split; [exact L | exact O]]].
  - rewrite E, leaves_with_ancestors_prefix, map_map. do 2 f_equal. apply map_ext.
    intros [path leaf]. unfold path_record, path_record_after. cbn [fst snd].
    now rewrite map_app, Ha.
  - now rewrite R, map_app, Ha.
Qed.

(** The contract of [get_paths] with its caller: called on a list that
    holds the titles above the node, it returns the records of the leaves
    below the node with these titles at the start of every context, leaves
    the title of the node on the list as its last element, for the caller
    to pop, and does not touch any other list. *)
Theorem get_paths_leaves_title_on_list node r (σ : Store.store) :
  r < length σ ->
  exists σ' : Store.store,
    get_paths node r σ
    = Returns (map (path_record_after (Store.read r σ)) (leaves_with_ancestors [] node), σ')
    /\ Store.read r σ' = Store.read r σ ++ [title node]
    /\ forall r', r' < length σ -> r' <> r -> σ' !! r' = σ !! r'.
Proof.
  intros Hr. destruct (get_paths_from_any_list node r σ Hr) as (σ' & E & R & _ & O).
  now exists σ'.
Qed.

Lemma get_paths_leaves_title_on_list_witness :
  1 < length [[]; ["Papers"]]
  /\ exists σ' : Store.store,
       get_paths Series.letters 1 [[]; ["Papers"]]
       = Returns (map (path_record_after (Store.read 1 [[]; ["Papers"]]))
                      (leaves_with_ancestors [] Series.letters), σ')
       /\ Store.read 1 σ' = Store.read 1 [[]; ["Papers"]] ++ [title Series.letters]
       /\ forall r', r' < length [[]; ["Papers"]] -> r' <> 1 ->
                     σ' !! r' = [[]; ["Papers"]] !! r'.
Proof.
  split; [simpl; lia|].
  apply (get_paths_leaves_title_on_list Series.letters 1 [[]; ["Papers"]]).
  simpl. lia.
Defined.

(** Calls that leave [titles] to its default share one list: the first
    call leaves the title of its node there, and every context the second
    call returns starts with what the list held, the title left by the
    first call included. *)
Theorem default_titles_accumulate n1 n2 (σ : Store.store) :
  Store.default_titles < length σ ->
  exists p1 p2 (σ1 σ2 : Store.store),
    get_paths_default n1 σ = Returns (p1, σ1)
    /\ get_paths_default n2 σ1 = Returns (p2, σ2)
    /\ Store.read Store.default_titles σ2
       = Store.read Store.default_titles σ ++ [title n1; title n2]
    /\ p2 = map (path_record_after
                   (Store.read Store.default_titles σ ++ [title n1]))
                (leaves_with_ancestors [] n2).
Proof.
  intros Hr. unfold get_paths_default.
  destruct (get_paths_from_any_list n1 _ σ Hr) as (σ1 & E1 & R1 & L1 & _).
  destruct (get_paths_from_any_list n2 Store.default_titles σ1) as (σ2 & E2 & R2 & _);
    [lia|].
  eexists _, _, σ1, σ2. split; [exact E1|]. split; [exact E2|]. split.
  - now rewrite R2, R1, <- app_assoc.
  - now rewrite R1.
Qed.

Lemma default_titles_accumulate_witness :
  Store.default_titles < length Store.initial
  /\ exists p1 p2 (σ1 σ2 : Store.store),
       get_paths_default Series.diary Store.initial = Returns (p1, σ1)
       /\ get_paths_default Series.letters σ1 = Returns (p2, σ2)
       /\ Store.read Store.default_titles σ2
          = Store.read Store.default_titles Store.initial
            ++ [title Series.diary; title Series.letters]
       /\ p2 = map (path_record_after
                      (Store.read Store.default_titles Store.initial
                       ++ [title Series.diary]))
                   (leaves_with_ancestors [] Series.letters).
Proof.
  split; [unfold Store.default_titles, Store.initial; simpl; lia|].
  apply (default_titles_accumulate Series.diary Series.letters Store.initial).
  unfold Store.default_titles, Store.initial. simpl. lia.
Defined.

Example default_titles_accumulate_contexts :
  (p1 ⇐ get_paths_default Series.diary;
   p2 ⇐ get_paths_default Series.letters;
   Store.ret (map context p1, map context p2)) Store.initial
  = Returns (([""], ["Diary / Letters / Family"; "Diary / Letters / Family"]),
             [["Diary"; "Letters"]; []; []; []]).
Proof. vm_compute. reflexivity. Qed.

(** ** The series and what nodes of one parent share *)

Lemma extract_node_details_reads fuel node level d :
  extract_node_details fuel node level = Returns d ->
  heading_id node = Some (node_id d)
  /\ title d = heading_title node
  /\ description d = get_text node
  /\ digitised d = is_digitised node
  /\ (if is_digitised node
      then try_except_KeyError (get_first_page node) (Returns (Some ""))
      else Returns (Some "")) = Returns (first_page d)
  /\ get_children (pred fuel) node level = Returns (children d).
Proof.
  destruct fuel as [|fuel]; [discriminate|]. rewrite extract_node_details_S.
  unfold attr_item, heading_id. destruct (attr_get "id" (attrs (self node))) as [i|];
    [|discriminate].
  destruct (first_page_step_returns node) as [fp Hfp]. rewrite Hfp.
  cbn [mbind outcome_bind pred].
  destruct (get_children fuel node level) as [cs| |]; try discriminate.
  intros [= <-]. cbn [node_id title description digitised first_page children].
  repeat split; reflexivity.
Qed.

(** [extract] gives one node per level-1 heading of the page, in the order
    of the page, each with the [id] of its heading and the trimmed text of
    the heading as title, whatever lies below the headings. *)
Theorem extract_one_node_per_series soup items :
  extract soup = Returns items ->
  Forall2 (fun h n => heading_id h = Some (node_id n) /\ title n = heading_title h)
          (find_all_class [] soup "ctag-heading c01") items
  /\ length items = length (find_all_class [] soup "ctag-heading c01").
Proof.
  unfold extract. intros H. apply for_append_returns in H.
  assert (F : Forall2 (fun h n => heading_id h = Some (node_id n)
                                  /\ title n = heading_title h)
                      (find_all_class [] soup "ctag-heading c01") items).
  { induction H as [|h n l l' Hhn _ IH]; constructor; [|exact IH].
    apply extract_node_details_reads in Hhn. tauto. }
  split; [exact F | symmetry; exact (Forall2_length _ _ _ F)].
Qed.

Lemma extract_one_node_per_series_witness :
  extract TwoSeries.page = Returns TwoSeries.items
  /\ Forall2 (fun h n => heading_id h = Some (node_id n) /\ title n = heading_title h)
             (find_all_class [] TwoSeries.page "ctag-heading c01") TwoSeries.items
  /\ length TwoSeries.items
     = length (find_all_class [] TwoSeries.page "ctag-heading c01").
Proof.
  assert (H : extract TwoSeries.page = Returns TwoSeries.items)
    by (vm_compute; reflexivity).
  split; [exact H|].
  exact (extract_one_node_per_series TwoSeries.page TwoSeries.items H).
Defined.

(** Description, digitised flag and first page are read from the
    structural parent alone: two headings with the same parent get the
    same three values, and at the same level the same children too. *)
Theorem same_parent_same_details fuel node node' level level' d d' :
  parent node = parent node' ->
  parent_loc node = parent_loc node' ->
  extract_node_details fuel node level = Returns d ->
  extract_node_details fuel node' level' = Returns d' ->
  description d = description d'
  /\ digitised d = digitised d'
  /\ first_page d = first_page d'
  /\ (level = level' -> children d = children d').
Proof.
  intros Hp Hl Hd Hd'.
  apply extract_node_details_reads in Hd as (_ & _ & D & G & F & C).
  apply extract_node_details_reads in Hd' as (_ & _ & D' & G' & F' & C').
  assert (Eg : is_digitised node = is_digitised node')
    by (unfold is_digitised; now rewrite Hp).
  assert (Ef : get_first_page node = get_first_page node')
    by (unfold get_first_page; now rewrite Hp, Hl).
  split; [rewrite D, D'; unfold get_text; now rewrite Hp|].
  split; [now rewrite G, G'|].
  split.
  - rewrite Eg, Ef in F. rewrite F in F'. now injection F'.
  - intros <-. unfold get_children, get_children_with in C, C'.
    rewrite Hp, Hl in C. rewrite C in C'. now injection C'.
Qed.

Lemma same_parent_same_details_witness :
  let a := mkNode [0] Sample.flat_page (Sample.heading "c01" "a" "A") in
  let x := mkNode [1] Sample.flat_page (Sample.heading "c02" "x" "X") in
  let da := mkDetails "a" "A" "" false (Some "")
              [ mkDetails "x" "X" "" false (Some "") [];
                mkDetails "y" "Y" "" false (Some "") [] ] in
  let dx := mkDetails "x" "X" "" false (Some "") [] in
  extract_node_details 3 a 1 = Returns da
  /\ extract_node_details 3 x 2 = Returns dx
  /\ description da = description dx
  /\ digitised da = digitised dx
  /\ first_page da = first_page dx
  /\ (1 = 2 -> children da = children dx).
Proof.
  intros a x da dx.
  assert (Ha : extract_node_details 3 a 1 = Returns da) by (vm_compute; reflexivity).
  assert (Hx : extract_node_details 3 x 2 = Returns dx) by (vm_compute; reflexivity).
  split; [exact Ha|]. split; [exact Hx|].
  exact (same_parent_same_details 3 a x 1 2 da dx eq_refl eq_refl Ha Hx).
Defined.

(** Without a summary region the title of the converted page is read from
    [<h1 id="contentrow">]: the empty string when there is no such tag,
    the single string of the tag when it has one, and the text [None]
    otherwise (a title with markup inside); the result has the keys
    [title], [collection_number] and [items] only. *)
Theorem fallback_title_cases soup items :
  find_id [] soup "collection-summary" = None ->
  extract soup = Returns items ->
  exists r,
    convert_finding_aid soup = Returns r
    /\ r !! "title" = Some (Text (fallback_title soup))
    /\ r !! "items" = Some (Items items)
    /\ forall k, is_Some (r !! k)
                 <-> k = "title" \/ k = "collection_number" \/ k = "items".
Proof.
  intros Hnone Hitems. unfold convert_finding_aid, get_fa_summary.
  rewrite Hnone. cbn [mbind outcome_bind]. rewrite lookup_empty.
  rewrite get_fa_details_returns, Hitems. cbn [mbind outcome_bind].
  eexists. split; [reflexivity|]. split; [|split].
  - rewrite lookup_insert_ne by discriminate.
    rewrite lookup_fmap, lookup_insert_ne by discriminate.
    rewrite lookup_insert_eq. unfold fallback_title.
    destruct (find_name_id [] soup "h1" "contentrow") as [n|]; [|reflexivity].
    now destruct (string_of (self n)).
  - apply lookup_insert_eq.
  - intros k. destruct (decide (k = "items")) as [->|H1].
    { rewrite lookup_insert_eq. split; [auto | now eexists]. }
    rewrite lookup_insert_ne by congruence. rewrite lookup_fmap.
    destruct (decide (k = "collection_number")) as [->|H2].
    { rewrite lookup_insert_eq. split; [auto | now eexists]. }
    rewrite lookup_insert_ne by congruence.
    destruct (decide (k = "title")) as [->|H3].
    { rewrite lookup_insert_eq. split; [auto | now eexists]. }
    rewrite lookup_insert_ne by congruence. rewrite lookup_empty.
    split; [now intros [? [=]] | tauto].
Qed.

Lemma fallback_title_cases_witness :
  find_id [] Markup.page "collection-summary" = None
  /\ extract Markup.page = Returns []
  /\ fallback_title Markup.page = "None"
  /\ exists r,
       convert_finding_aid Markup.page = Returns r
       /\ r !! "title" = Some (Text (fallback_title Markup.page))
       /\ r !! "items" = Some (Items [])
       /\ forall k, is_Some (r !! k)
                    <-> k = "title" \/ k = "collection_number" \/ k = "items".
Proof.
  split; [reflexivity|]. split; [vm_compute; reflexivity|]. split; [reflexivity|].
  apply (fallback_title_cases Markup.page []); [reflexivity | vm_compute; reflexivity].
Defined.

Example markup_title_is_None :
  convert_finding_aid Markup.page = Returns Markup.result.
Proof. vm_compute. reflexivity. Qed.

(** * Properties of the other notebooks *)

(** ** [get_fa_link] *)

Lemma search_unfold re s :
  Re.search re s
  = match Re.match_here re s with
    | Some m => Some m
    | None =>
        match s with
        | String c s' => Re.search re s'
        | EmptyString => None
        end
    end.
Proof. destruct s; reflexivity. Qed.

Lemma match_here_literal lit : forall s,
  Re.match_here (Re.literal lit) s
  = (fun _ => lit) <$> PyStr.strip_prefix lit s.
Proof.
  induction lit as [|c r IH]; intros s; [reflexivity|].
  cbn [Re.literal Re.match_here PyStr.strip_prefix].
  destruct s as [|c' s']; [reflexivity|].
  destruct (Ascii.eqb c c') eqn:E; [|reflexivity].
  apply Ascii.eqb_eq in E. subst c'. rewrite IH.
  now destruct (PyStr.strip_prefix r s').
Qed.

Lemma match_here_lazy p rest s :
  Re.match_here (Re.LazyStar p :: rest) s
  = match Re.match_here rest s with
    | Some m => Some m
    | None =>
        match s with
        | String c s' =>
            if p c then String c <$> Re.match_here (Re.LazyStar p :: rest) s'
            else None
        | EmptyString => None
        end
    end.
Proof. destruct s; reflexivity. Qed.

(** On a text without newline the link pattern matches, at the first
    position, up to the end of the first occurrence of the literal. *)
Lemma match_here_fa_re lit s :
  all_chars Re.any s = true ->
  Re.match_here (Re.LazyStar Re.any :: Re.literal lit) s = Links.up_to_first lit s.
Proof.
  induction s as [|c r IH]; intros Hs; rewrite match_here_lazy, match_here_literal.
  - cbn [Links.up_to_first]. now destruct (PyStr.strip_prefix lit "").
  - cbn [Links.up_to_first]. destruct (PyStr.strip_prefix lit (String c r)); [reflexivity|].
    cbn [fmap option_fmap option_map]. cbn [all_chars] in Hs.
    apply andb_true_iff in Hs as [Hc Hr]. rewrite Hc. now rewrite IH.
Qed.

Lemma up_to_first_tail lit c r :
  Links.up_to_first lit (String c r) = None -> Links.up_to_first lit r = None.
Proof.
  cbn [Links.up_to_first]. destruct (PyStr.strip_prefix lit (String c r)); [discriminate|].
  now destruct (Links.up_to_first lit r).
Qed.

Lemma search_fa_re lit s :
  all_chars Re.any s = true ->
  Re.search (Re.LazyStar Re.any :: Re.literal lit) s = Links.up_to_first lit s.
Proof.
  induction s as [|c r IH]; intros Hs;
    rewrite search_unfold, (match_here_fa_re lit _ Hs).
  - now destruct (Links.up_to_first lit "").
  - destruct (Links.up_to_first lit (String c r)) eqn:E; [reflexivity|].
    cbn [all_chars] in Hs. apply andb_true_iff in Hs as [_ Hr].
    rewrite (IH Hr). now apply (up_to_first_tail lit c r).
Qed.

Lemma contains_up_to_first sub s :
  Links.contains sub s = true <-> is_Some (Links.up_to_first sub s).
Proof.
  induction s as [|c r IH]; cbn [Links.contains Links.up_to_first].
  - destruct (PyStr.strip_prefix sub ""); split; eauto; try discriminate.
    now intros [? [=]].
  - destruct (PyStr.strip_prefix sub (String c r)); [split; eauto|].
    rewrite IH. destruct (Links.up_to_first sub r); cbn; split; eauto;
      now intros [? [=]].
Qed.

(** Where the substring test finds the literal the pattern has a match. *)
Lemma contains_search lit s :
  Links.contains lit s = true ->
  is_Some (Re.search (Re.LazyStar Re.any :: Re.literal lit) s).
Proof.
  induction s as [|c r IH]; cbn [Links.contains];
    rewrite search_unfold, match_here_lazy, match_here_literal.
  - destruct (PyStr.strip_prefix lit ""); [now eexists | discriminate].
  - destruct (PyStr.strip_prefix lit (String c r)); [now eexists|].
    cbn [fmap option_fmap option_map]. intros H.
    destruct (if Re.any c then _ else None); [now eexists | now apply IH].
Qed.

Lemma strip_prefix_Some sub s post :
  PyStr.strip_prefix sub s = Some post -> s = sub +:+ post.
Proof.
  revert s. induction sub as [|a r IH]; intros s; cbn [PyStr.strip_prefix].
  - now intros [= ->].
  - destruct s as [|b s']; [discriminate|].
    destruct (Ascii.eqb a b) eqn:E; [|discriminate].
    apply Ascii.eqb_eq in E. subst b. intros H. rewrite str_app_cons.
    now rewrite (IH _ H).
Qed.

(** The text up to the first occurrence: it ends with the literal, it
    starts the string, and the literal does not occur earlier. *)
Lemma up_to_first_spec sub s l :
  Links.up_to_first sub s = Some l ->
  exists body post,
    l = body +:+ sub /\ s = l +:+ post
    /\ forall body' post', s = body' +:+ sub +:+ post' ->
                           String.length body <= String.length body'.
Proof.
  revert l. induction s as [|c r IH]; intros l; cbn [Links.up_to_first].
  - destruct (PyStr.strip_prefix sub "") as [post|] eqn:E; [|discriminate].
    intros [= <-]. apply strip_prefix_Some in E.
    exists EmptyString, post. split; [reflexivity|]. split; [exact E|].
    intros. simpl. lia.
  - destruct (PyStr.strip_prefix sub (String c r)) as [post|] eqn:E.
    + intros [= <-]. apply strip_prefix_Some in E.
      exists EmptyString, post. split; [reflexivity|]. split; [exact E|].
      intros. simpl. lia.
    + destruct (Links.up_to_first sub r) as [l'|]; [|discriminate].
      intros [= <-]. destruct (IH l' eq_refl) as (body & post & -> & Hr & Hmin).
      exists (String c body), post. split; [reflexivity|].
      split; [now rewrite !str_app_cons, <- Hr|].
      intros body' post' Hs. destruct body' as [|c' b'].
      * change ("" +:+ sub +:+ post') with (sub +:+ post') in Hs.
        rewrite Hs, strip_prefix_app in E. discriminate.
      * rewrite str_app_cons in Hs. injection Hs as _ Hs.
        specialize (Hmin b' post' Hs). simpl. lia.
Qed.

Lemma get_fa_link_raises identifiers e :
  Links.get_fa_link identifiers = Raises e -> e = KeyError "value".
Proof.
  induction identifiers as [|ident r IH]; cbn [Links.get_fa_link]; [discriminate|].
  unfold Links.dict_item. destruct (attr_get "value" ident) as [value|];
    [|now intros [= <-]].
  cbn [mbind outcome_bind].
  destruct (Links.contains "findingaid" value) eqn:C; [|exact IH].
  destruct (contains_search "findingaid" value C) as [m Hm].
  unfold Links.fa_re. rewrite Hm. discriminate.
Qed.

(** [get_fa_link] can only raise [KeyError], for an identifier without
    [value]: when the test for [findingaid] succeeds the pattern matches,
    so the result of the search is never [None]. *)
Theorem get_fa_link_only_KeyError identifiers e :
  Links.get_fa_link identifiers = Raises e -> e = KeyError "value".
Proof. apply get_fa_link_raises. Qed.

Lemma get_fa_link_only_KeyError_witness :
  Links.get_fa_link [[("type", "url")]; [("value", "http://nla.gov.au/x/findingaid")]]
  = Raises (KeyError "value")
  /\ KeyError "value" = KeyError "value".
Proof.
  assert (H : Links.get_fa_link
                [[("type", "url")]; [("value", "http://nla.gov.au/x/findingaid")]]
              = Raises (KeyError "value")) by (vm_compute; reflexivity).
  split; [exact H|].
  exact (get_fa_link_only_KeyError _ _ H).
Defined.

(** [get_fa_link] returns the link of the first identifier whose value
    mentions [findingaid], cut right after the first [findingaid], when
    the identifiers before it have values that do not mention it and the
    value has no newline in it. *)
Theorem get_fa_link_first_link before ident after value :
  (forall i, In i before ->
             exists v, attr_get "value" i = Some v
                       /\ Links.contains "findingaid" v = false) ->
  attr_get "value" ident = Some value ->
  Links.contains "findingaid" value = true ->
  all_chars Re.any value = true ->
  exists body post,
    Links.get_fa_link (before ++ ident :: after) = Returns (Some (body +:+ "findingaid"))
    /\ value = body +:+ "findingaid" +:+ post
    /\ forall body' post', value = body' +:+ "findingaid" +:+ post' ->
                           String.length body <= String.length body'.
Proof.
  intros Hbefore Hv Hc Hnl.
  destruct (proj1 (contains_up_to_first _ _) Hc) as [l Hl].
  destruct (up_to_first_spec _ _ _ Hl) as (body & post & -> & Hs & Hmin).
  exists body, post. split; [|split; [now rewrite Hs at 1; rewrite str_app_assoc | exact Hmin]].
  induction before as [|i r IH]; cbn [app Links.get_fa_link]; unfold Links.dict_item.
  - rewrite Hv. cbn [mbind outcome_bind]. rewrite Hc.
    unfold Links.fa_re. rewrite (search_fa_re _ _ Hnl), Hl.
    reflexivity.
  - destruct (Hbefore i) as (v & Hiv & Hic); [now left|].
    rewrite Hiv. cbn [mbind outcome_bind]. rewrite Hic. apply IH.
    intros j Hj. apply Hbefore. now right.
Qed.

Lemma get_fa_link_first_link_witness :
  exists body post,
    Links.get_fa_link
      ([[("type", "url"); ("value", "http://trove.nla.gov.au/work/1")]]
       ++ [("value", "https://nla.gov.au/nla.obj-1/findingaid?q=findingaid")] :: [])
    = Returns (Some (body +:+ "findingaid"))
    /\ "https://nla.gov.au/nla.obj-1/findingaid?q=findingaid"
       = body +:+ "findingaid" +:+ post
    /\ forall body' post',
         "https://nla.gov.au/nla.obj-1/findingaid?q=findingaid"
         = body' +:+ "findingaid" +:+ post' ->
         String.length body <= String.length body'.
Proof.
  apply (get_fa_link_first_link
           [[("type", "url"); ("value", "http://trove.nla.gov.au/work/1")]]
           [("value", "https://nla.gov.au/nla.obj-1/findingaid?q=findingaid")] []
           "https://nla.gov.au/nla.obj-1/findingaid?q=findingaid").
  - intros i [<-|[]]. eexists. split; [reflexivity | vm_compute; reflexivity].
  - reflexivity.
  - vm_compute. reflexivity.
  - vm_compute. reflexivity.
Defined.

Example get_fa_link_example :
  Links.get_fa_link
    [ [("type", "url"); ("value", "http://trove.nla.gov.au/work/1")];
      [("value", "https://nla.gov.au/nla.obj-1/findingaid?q=findingaid")] ]
  = Returns (Some "https://nla.gov.au/nla.obj-1/findingaid").
Proof. vm_compute. reflexivity. Qed.

(** ** The links of a page of results *)

Lemma contains_false_prefix sub s :
  Links.contains sub s = false -> PyStr.strip_prefix sub s = None.
Proof.
  destruct s; cbn [Links.contains]; destruct (PyStr.strip_prefix sub _); congruence.
Qed.

Lemma contains_false_tail sub c r :
  Links.contains sub (String c r) = false -> Links.contains sub r = false.
Proof.
  cbn [Links.contains]. now destruct (PyStr.strip_prefix sub (String c r)).
Qed.

(** Where [old] does not occur nothing is replaced. *)
Lemma replace_absent old new s :
  Links.contains old s = false -> Harvest.replace old new s = s.
Proof.
  unfold Harvest.replace. induction s as [|c r IH]; intros H; [reflexivity|].
  cbn [Harvest.replace_from]. rewrite (contains_false_prefix _ _ H).
  now rewrite IH by now apply (contains_false_tail old c r).
Qed.

Lemma replace_from_skip old new a : forall b,
  Harvest.replace_from old new (String.length a) (a +:+ b)
  = Harvest.replace_from old new 0 b.
Proof.
  induction a as [|c r IH]; intros b; [reflexivity|].
  rewrite str_app_cons. cbn [String.length Harvest.replace_from]. apply IH.
Qed.

(** An occurrence at the start is replaced, and the replacement goes on
    after it. *)
Lemma replace_at_start c old new rest :
  Harvest.replace (String c old) new (String c old +:+ rest)
  = new +:+ Harvest.replace (String c old) new rest.
Proof.
  unfold Harvest.replace. rewrite str_app_cons. cbn [Harvest.replace_from].
  rewrite <- str_app_cons, strip_prefix_app. cbn [String.length].
  replace (S (String.length old) - 1) with (String.length old) by lia.
  now rewrite replace_from_skip.
Qed.

Lemma strip_prefix_app_l a b s :
  PyStr.strip_prefix a s = None -> PyStr.strip_prefix (a +:+ b) s = None.
Proof.
  revert s. induction a as [|c r IH]; intros s; [discriminate|].
  rewrite str_app_cons. cbn [PyStr.strip_prefix]. destruct s as [|c' s']; [reflexivity|].
  destruct (Ascii.eqb c c'); [apply IH | reflexivity].
Qed.

Lemma contains_app_l a b s :
  Links.contains a s = false -> Links.contains (a +:+ b) s = false.
Proof.
  induction s as [|c r IH]; intros H; cbn [Links.contains].
  - now rewrite (strip_prefix_app_l a b _ (contains_false_prefix _ _ H)).
  - rewrite (strip_prefix_app_l a b _ (contains_false_prefix _ _ H)).
    apply IH. now apply (contains_false_tail a c r).
Qed.

Lemma contains_cons sub c r :
  Links.contains sub (String c r)
  = match PyStr.strip_prefix sub (String c r) with
    | Some _ => true
    | None => Links.contains sub r
    end.
Proof. reflexivity. Qed.

Lemma strip_prefix_nil s : PyStr.strip_prefix "" s = Some s.
Proof. reflexivity. Qed.

Lemma strip_prefix_cons_eq a p s :
  PyStr.strip_prefix (String a p) (String a s) = PyStr.strip_prefix p s.
Proof. cbn [PyStr.strip_prefix]. now rewrite Ascii.eqb_refl. Qed.

Lemma strip_prefix_cons_ne a b p s :
  a <> b -> PyStr.strip_prefix (String a p) (String b s) = None.
Proof.
  intros H. cbn [PyStr.strip_prefix]. destruct (Ascii.eqb a b) eqn:E; [|reflexivity].
  now apply Ascii.eqb_eq in E.
Qed.

Lemma replace_from_cons_0 old new c r :
  Harvest.replace_from old new 0 (String c r)
  = match PyStr.strip_prefix old (String c r) with
    | Some _ => new +:+ Harvest.replace_from old new (String.length old - 1) r
    | None => String c (Harvest.replace_from old new 0 r)
    end.
Proof. reflexivity. Qed.

Lemma replace_from_cons_S old new k c r :
  Harvest.replace_from old new (S k) (String c r) = Harvest.replace_from old new k r.
Proof. reflexivity. Qed.

Ltac step_prefix :=
  repeat first [ rewrite strip_prefix_cons_eq
               | rewrite strip_prefix_cons_ne by discriminate
               | rewrite strip_prefix_nil ].

(** The two forms of a link come out the same: with [https] or [http],
    or with [http://] put in front of the [https] form, a link whose
    remainder has no [http] in it is stored with [http://] once. *)
Theorem standardise_one_form rest :
  Links.contains "http" rest = false ->
  Harvest.standardise ("https://" +:+ rest) = "http://" +:+ rest
  /\ Harvest.standardise ("http://" +:+ rest) = "http://" +:+ rest
  /\ Harvest.standardise ("http://https://" +:+ rest) = "http://" +:+ rest.
Proof.
  intros H.
  assert (Hs : Links.contains "https" rest = false)
    by exact (contains_app_l "http" "s" rest H).
  assert (Hd : Links.contains "http://http" rest = false)
    by exact (contains_app_l "http" "://http" rest H).
  assert (P : PyStr.strip_prefix "http" rest = None)
    by now apply contains_false_prefix.
  assert (A1 : Links.contains "https" ("://" +:+ rest) = false) by exact Hs.
  assert (A2 : Links.contains "http://http" ("http://" +:+ rest) = false).
  { rewrite !str_app_cons, str_app_nil_l.
    rewrite contains_cons. step_prefix. rewrite P.
    repeat (rewrite contains_cons; step_prefix). exact Hd. }
  assert (A3 : Links.contains "https" ("http://" +:+ rest) = false) by exact Hs.
  assert (A4 : Links.contains "http://http" ("://" +:+ rest) = false) by exact Hd.
  assert (R : Harvest.replace_from "https" "http" 0 rest = rest)
    by exact (replace_absent "https" "http" rest Hs).
  unfold Harvest.standardise. split; [|split].
  - change ("https://" +:+ rest) with ("https" +:+ ("://" +:+ rest)).
    rewrite replace_at_start, (replace_absent _ _ _ A1).
    change ("http" +:+ "://" +:+ rest) with ("http://" +:+ rest).
    now apply replace_absent.
  - rewrite (replace_absent _ _ _ A3). now apply replace_absent.
  - assert (E : Harvest.replace "https" "http" ("http://https://" +:+ rest)
                = "http://http" +:+ ("://" +:+ rest)).
    { unfold Harvest.replace. rewrite !str_app_cons, str_app_nil_l.
      repeat first [ rewrite replace_from_cons_S
                   | rewrite replace_from_cons_0; step_prefix;
                     cbn [String.length Nat.sub] ].
      rewrite R. reflexivity. }
    rewrite E, replace_at_start. now rewrite (replace_absent _ _ _ A4).
Qed.

Lemma standardise_one_form_witness :
  Links.contains "http" "nla.gov.au/nla.obj-1/findingaid" = false
  /\ Harvest.standardise ("https://" +:+ "nla.gov.au/nla.obj-1/findingaid")
     = "http://" +:+ "nla.gov.au/nla.obj-1/findingaid"
  /\ Harvest.standardise ("http://" +:+ "nla.gov.au/nla.obj-1/findingaid")
     = "http://" +:+ "nla.gov.au/nla.obj-1/findingaid"
  /\ Harvest.standardise ("http://https://" +:+ "nla.gov.au/nla.obj-1/findingaid")
     = "http://" +:+ "nla.gov.au/nla.obj-1/findingaid".
Proof.
  split; [vm_compute; reflexivity|].
  apply (standardise_one_form "nla.gov.au/nla.obj-1/findingaid").
  vm_compute. reflexivity.
Defined.

Lemma harvest_record_returns record finding_aids :
  exists added,
    Harvest.harvest_record record finding_aids = Returns (finding_aids ++ added)
    /\ length added <= 1
    /\ forall l, In l added ->
         exists identifiers fa_link,
           record = Some identifiers
           /\ Links.get_fa_link identifiers = Returns (Some fa_link)
           /\ l = Harvest.standardise fa_link.
Proof.
  unfold Harvest.harvest_record, Harvest.record_link.
  destruct record as [identifiers|].
  2:{ exists []. rewrite app_nil_r. split; [reflexivity|]. split; [simpl; lia|].
      intros l []. }
  destruct (Links.get_fa_link identifiers) as [[fa_link|]|e|] eqn:E.
  - destruct (String.eqb fa_link "").
    + exists []. rewrite app_nil_r. split; [reflexivity|]. split; [simpl; lia|].
      intros l [].
    + exists [Harvest.standardise fa_link]. split; [reflexivity|]. split; [simpl; lia|].
      intros l [<-|[]]. now exists identifiers, fa_link.
  - exists []. rewrite app_nil_r. split; [reflexivity|]. split; [simpl; lia|].
    intros l [].
  - rewrite (get_fa_link_raises _ _ E).
    exists []. rewrite app_nil_r. split; [reflexivity|]. split; [simpl; lia|].
    intros l [].
  - exfalso. clear -E. induction identifiers as [|ident r IH]; [discriminate|].
    cbn [Links.get_fa_link] in E. unfold Links.dict_item in E.
    destruct (attr_get "value" ident) as [value|]; [|discriminate].
    cbn [mbind outcome_bind] in E.
    destruct (Links.contains "findingaid" value); [|now apply IH].
    now destruct (Re.search Links.fa_re value).
Qed.

(** The loop over the records of a page never raises: a record without
    the field [identifier], or with an identifier without [value] before
    its link, is passed over; the links already collected stay, in their
    order, and each record adds at most one link, the standardised link
    that [get_fa_link] returns for it. *)
Theorem harvest_records_never_raise records finding_aids :
  exists added,
    Harvest.harvest_records records finding_aids = Returns (finding_aids ++ added)
    /\ length added <= length records
    /\ forall l, In l added ->
         exists identifiers fa_link,
           In (Some identifiers) records
           /\ Links.get_fa_link identifiers = Returns (Some fa_link)
           /\ l = Harvest.standardise fa_link.
Proof.
  revert finding_aids. induction records as [|record rest IH]; intros finding_aids.
  - exists []. rewrite app_nil_r. split; [reflexivity|]. split; [simpl; lia|].
    intros l [].
  - cbn [Harvest.harvest_records].
    destruct (harvest_record_returns record finding_aids) as (a1 & -> & L1 & H1).
    cbn [mbind outcome_bind].
    destruct (IH (finding_aids ++ a1)) as (a2 & -> & L2 & H2).
    exists (a1 ++ a2). rewrite app_assoc. split; [reflexivity|].
    split; [rewrite length_app; simpl; lia|].
    intros l Hl. apply in_app_or in Hl as [Hl|Hl].
    + destruct (H1 l Hl) as (ids & link & -> & Hg & ->).
      exists ids, link. split; [now left | now split].
    + destruct (H2 l Hl) as (ids & link & Hin & Hg & ->).
      exists ids, link. split; [now right | now split].
Qed.

Example harvest_records_example :
  Harvest.harvest_records
    [ None;
      Some [[("type", "url")]; [("value", "https://nla.gov.au/nla.obj-1/findingaid")]];
      Some [[("value", "https://nla.gov.au/nla.obj-2/findingaid?x=1")]];
      Some [[("value", "http://trove.nla.gov.au/work/3")]] ]
    ["http://nla.gov.au/nla.obj-0/findingaid"]
  = Returns [ "http://nla.gov.au/nla.obj-0/findingaid";
              "http://nla.gov.au/nla.obj-2/findingaid" ].
Proof. vm_compute. reflexivity. Qed.

(** ** Searching for a pattern over code points *)

Section Code_points.

Context (db : Unicode.database).

Lemma search_from_unfold re prev s :
  Pattern.search_from db re prev s
  = match Pattern.match_here db re prev s with
    | Some m => Some m
    | None =>
        match s with
        | c :: s' => Pattern.search_from db re (Some c) s'
        | [] => None
        end
    end.
Proof. destruct s; reflexivity. Qed.

(** A match that is found starts somewhere in the text. *)
Lemma search_from_sound re s : forall prev m,
  Pattern.search_from db re prev s = Some m ->
  exists pre suf,
    s = pre ++ suf /\ Pattern.match_here db re (Pattern.last_of prev pre) suf = Some m.
Proof.
  induction s as [|c r IH]; intros prev m; rewrite search_from_unfold.
  - destruct (Pattern.match_here db re prev []) as [m'|] eqn:E; [|discriminate].
    intros [= <-]. now exists [], [].
  - destruct (Pattern.match_here db re prev (c :: r)) as [m'|] eqn:E.
    + intros [= <-]. now exists [], (c :: r).
    + intros H. destruct (IH _ _ H) as (pre & suf & -> & Hm).
      now exists (c :: pre), suf.
Qed.

(** The match found is the one at the first position that has one. *)
Lemma search_from_first re pre : forall prev suf m,
  Pattern.match_here db re (Pattern.last_of prev pre) suf = Some m ->
  (forall p1 p2, pre = p1 ++ p2 -> p2 <> [] ->
                 Pattern.match_here db re (Pattern.last_of prev p1) (p2 ++ suf) = None) ->
  Pattern.search_from db re prev (pre ++ suf) = Some m.
Proof.
  induction pre as [|c r IH]; intros prev suf m Hm Hnone; rewrite search_from_unfold.
  - cbn [app Pattern.last_of] in *. now rewrite Hm.
  - pose proof (Hnone [] (c :: r) eq_refl ltac:(discriminate)) as H0.
    cbn [Pattern.last_of] in H0. cbn [app] in *. rewrite H0.
    apply IH; [exact Hm|].
    intros p1 p2 -> Hp2. now apply (Hnone (c :: p1) p2).
Qed.

(** Where the atoms match there is a match to find. *)
Lemma search_from_complete re pre : forall prev suf m,
  Pattern.match_here db re (Pattern.last_of prev pre) suf = Some m ->
  is_Some (Pattern.search_from db re prev (pre ++ suf)).
Proof.
  induction pre as [|c r IH]; intros prev suf m Hm; rewrite search_from_unfold.
  - cbn [app Pattern.last_of] in *. rewrite Hm. now eexists.
  - cbn [app]. destruct (Pattern.match_here db re prev (c :: r ++ suf)); [now eexists|].
    now apply (IH (Some c) suf m).
Qed.

Lemma last_of_snoc prev pre c : Pattern.last_of prev (pre ++ [c]) = Some c.
Proof. revert prev. induction pre as [|a r IH]; intros prev; [reflexivity | apply IH]. Qed.

(** ** [get_latest_year] *)

Lemma at_end_iff s : Pattern.at_end s = true <-> s = [] \/ s = [Unicode.nl].
Proof.
  destruct s as [|c [|c' r]]; cbn [Pattern.at_end].
  - tauto.
  - rewrite N.eqb_eq. split.
    + intros ->. now right.
    + intros [H|H]; [discriminate | now injection H].
  - split; [discriminate | intros [H|H]; discriminate].
Qed.

(** A decimal digit is a word character. *)
Lemma digit_is_word c : Pattern.digit db c = true -> Pattern.word db c = true.
Proof.
  unfold Pattern.digit, Pattern.word, Unicode.isalnum. intros ->.
  now rewrite orb_true_r.
Qed.

Lemma match_here_year prev s m :
  Pattern.match_here db (Years.year_re db) prev s = Some m
  <-> Pattern.word_before db prev = false
      /\ length m = 4
      /\ forallb (Pattern.digit db) m = true
      /\ (s = m \/ s = m ++ [Unicode.nl]).
Proof.
  unfold Years.year_re. split.
  - destruct s as [|c1 [|c2 [|c3 [|c4 t]]]];
      cbn [Pattern.match_here Pattern.word_after].
    + destruct (xorb _ _); discriminate.
    + destruct (xorb _ _); [|discriminate]. destruct (Pattern.digit db c1); discriminate.
    + destruct (xorb _ _); [|discriminate].
      destruct (Pattern.digit db c1); [|discriminate].
      destruct (Pattern.digit db c2); discriminate.
    + destruct (xorb _ _); [|discriminate].
      destruct (Pattern.digit db c1); [|discriminate].
      destruct (Pattern.digit db c2); [|discriminate].
      destruct (Pattern.digit db c3); discriminate.
    + destruct (Pattern.digit db c1) eqn:D1.
      2:{ destruct (xorb _ _); discriminate. }
      rewrite (digit_is_word c1 D1).
      destruct (Pattern.word_before db prev); [discriminate|]. cbn [xorb].
      destruct (Pattern.digit db c2) eqn:D2; [|discriminate].
      destruct (Pattern.digit db c3) eqn:D3; [|discriminate].
      destruct (Pattern.digit db c4) eqn:D4; [|discriminate].
      destruct (Pattern.at_end t) eqn:E; [|discriminate]. cbn. intros [= <-].
      split; [reflexivity|]. split; [reflexivity|]. cbn [forallb].
      rewrite D1, D2, D3, D4. split; [reflexivity|].
      apply at_end_iff in E as [->| ->]; [now left | now right].
  - intros (Hw & Hl & Hd & Hs).
    destruct m as [|c1 [|c2 [|c3 [|c4 [|c5 m]]]]]; try discriminate.
    cbn [forallb] in Hd. rewrite !andb_true_iff in Hd.
    destruct Hd as (D1 & D2 & D3 & D4 & _).
    assert (E : exists t, s = c1 :: c2 :: c3 :: c4 :: t /\ Pattern.at_end t = true).
    { destruct Hs as [->| ->]; [now exists [] | now exists [Unicode.nl]]. }
    destruct E as (t & -> & E). cbn [Pattern.match_here Pattern.word_after].
    rewrite (digit_is_word c1 D1), Hw. cbn [xorb].
    rewrite D1, D2, D3, D4, E. reflexivity.
Qed.

Lemma get_latest_year_helper v y :
  Years.get_latest_year db v = Some y
  <-> exists s, v = Years.Str s /\ Years.year_at_end db s y.
Proof.
  unfold Years.get_latest_year, Years.search_year. split.
  - destruct v as [s|]; [|discriminate]. unfold Pattern.search.
    destruct (Pattern.search_from db (Years.year_re db) None s) as [m|] eqn:E;
      [|discriminate].
    intros [= <-]. exists s. split; [reflexivity|].
    apply search_from_sound in E as (pre & suf & -> & Hm).
    apply match_here_year in Hm as (Hw & Hl & Hd & Hs).
    exists pre. split; [|auto]. destruct Hs as [->| ->]; [now left | now right].
  - intros (s & -> & pre & Hs & Hl & Hd & Hw). unfold Pattern.search.
    assert (E : exists suf, s = pre ++ suf /\ (suf = y \/ suf = y ++ [Unicode.nl])).
    { destruct Hs as [->| ->]; eexists; split; eauto. }
    destruct E as (suf & -> & Hsuf).
    rewrite (search_from_first (Years.year_re db) pre None suf y); [reflexivity| |].
    + apply match_here_year. auto.
    + intros p1 p2 Hpre Hp2.
      destruct (Pattern.match_here db (Years.year_re db) (Pattern.last_of None p1)
                  (p2 ++ suf)) as [m|] eqn:E; [|reflexivity].
      exfalso. apply match_here_year in E as (_ & Hlm & Hdm & Hsm).
      destruct y as [|y1 [|y2 [|y3 [|y4 [|y5 y]]]]]; try discriminate.
      destruct m as [|m1 [|m2 [|m3 [|m4 [|m5 m]]]]]; try discriminate.
      destruct p2 as [|c p2]; [now apply Hp2|].
      destruct Hsuf as [->| ->]; destruct Hsm as [Hsm|Hsm];
        apply (f_equal (@length N)) in Hsm as Hlen;
        rewrite ?length_app in Hlen; simpl in Hlen; try lia.
      destruct p2; [|simpl in Hlen; lia].
      injection Hsm as -> _ _ _ _.
      cbn [forallb] in Hdm. apply andb_true_iff in Hdm as [D1 _].
      rewrite Hpre, last_of_snoc in Hw. cbn [Pattern.word_before] in Hw.
      rewrite (digit_is_word _ D1) in Hw. discriminate.
Qed.

(** [get_latest_year] returns the year at the end of a string, if there is
    one: four decimal digits, in any script, that end the string or come
    before a newline that ends it, with no alphanumeric character and no
    underscore before them.  It returns [None] for every other string and
    for a value that is not a string. *)
Theorem get_latest_year_year_at_end v y :
  Years.get_latest_year db v = Some y
  <-> exists s, v = Years.Str s /\ Years.year_at_end db s y.
Proof. apply get_latest_year_helper. Qed.

(** ** [check_creators] and [check_date] *)

(** [int] of a text of decimal digits does not raise. *)
Lemma int_from_digits y : forall acc,
  forallb (Pattern.digit db) y = true -> is_Some (Years.int_from db acc y).
Proof.
  induction y as [|c r IH]; intros acc H; cbn [Years.int_from]; [now eexists|].
  cbn [forallb] in H. apply andb_true_iff in H as [Hc Hr].
  unfold Pattern.digit, Unicode.isdecimal in Hc.
  destruct (Unicode.todecimal db c); [now apply IH | discriminate].
Qed.

Lemma year_reads s y : Years.year_at_end db s y -> is_Some (Years.int_of_digits db y).
Proof.
  intros (_ & _ & Hl & Hd & _). destruct y as [|c r]; [discriminate|].
  now apply int_from_digits.
Qed.

Lemma before_1949_iff v :
  Years.before_1949 db (Years.get_latest_year db v) = true
  <-> Years.ends_before_1949 db v.
Proof.
  unfold Years.before_1949, Years.ends_before_1949. split.
  - destruct (Years.get_latest_year db v) as [y|] eqn:E; [|discriminate].
    apply get_latest_year_helper in E as (s & -> & Hy).
    destruct y as [|c r]; [discriminate|].
    destruct (Years.int_of_digits db (c :: r)) as [n|] eqn:En; [|discriminate].
    intros H. apply Nat.ltb_lt in H. now exists s, (c :: r), n.
  - intros (s & y & n & -> & Hy & Hn & Hlt).
    assert (E : Years.get_latest_year db (Years.Str s) = Some y).
    { apply get_latest_year_helper. now exists s. }
    rewrite E, Hn. destruct Hy as (_ & _ & Hl & _).
    destruct y; [discriminate|]. now apply Nat.ltb_lt.
Qed.

Lemma count_creators_filter creators : forall count,
  Years.count_creators db creators count
  = count + length (List.filter
                      (fun c => Years.before_1949 db (Years.get_latest_year db c))
                      creators).
Proof.
  induction creators as [|c r IH]; intros count; cbn [Years.count_creators List.filter].
  - simpl. lia.
  - destruct (Years.before_1949 db (Years.get_latest_year db c)); rewrite IH; simpl; lia.
Qed.

Lemma filter_length_all {A} (p : A -> bool) l :
  length (List.filter p l) <= length l
  /\ (length (List.filter p l) = length l <-> forallb p l = true).
Proof.
  induction l as [|x r [IH1 IH2]]; [simpl; split; [lia | split; reflexivity]|].
  cbn [List.filter forallb].
  destruct (p x); simpl.
  - split; [lia|]. rewrite <- IH2. split; lia.
  - split; [lia|]. split; [lia | discriminate].
Qed.

Lemma check_creators_helper creators :
  Years.check_creators db creators = true
  <-> List.Forall (Years.ends_before_1949 db) creators.
Proof.
  unfold Years.check_creators. rewrite count_creators_filter, Nat.eqb_eq. cbn [plus].
  destruct (filter_length_all
              (fun c => Years.before_1949 db (Years.get_latest_year db c)) creators)
    as [_ H].
  rewrite List.Forall_forall. split.
  - intros E c Hc. apply before_1949_iff. symmetry in E. apply H in E.
    rewrite forallb_forall in E. now apply E.
  - intros Hall. symmetry. apply H. rewrite forallb_forall. intros c Hc.
    apply before_1949_iff. now apply Hall.
Qed.

(** [check_creators] counts the creators that end with a year before
    1949 and compares with their number: it is true exactly when every
    creator is a string that ends with such a year; so it is true for an
    empty list and false as soon as one creator has no year at its end. *)
Theorem check_creators_all_before_1949 creators :
  Years.check_creators db creators = true
  <-> List.Forall (Years.ends_before_1949 db) creators.
Proof. apply check_creators_helper. Qed.

(** [check_date] is true exactly when the issued date ends with a year
    before 1949; the year that [get_latest_year] returns is made of
    decimal digits, so its conversion to a number never fails. *)
Theorem check_date_before_1949 issued :
  (Years.check_date db issued = true <-> Years.ends_before_1949 db issued)
  /\ forall y, Years.get_latest_year db issued = Some y ->
               is_Some (Years.int_of_digits db y).
Proof.
  split; [apply before_1949_iff|].
  intros y Hy. apply get_latest_year_helper in Hy as (s & _ & Hy).
  now apply (year_reads s).
Qed.


Example check_creators_examples :
  let text := Unicode.of_ascii in
  let db := Unicode.excerpt in
  Years.check_creators db [] = true
  /\ Years.check_creators db [Years.Str (text "Lawson, Henry, 1867-1922")] = true
  /\ Years.check_creators db
       [Years.Str (text "Lawson, Henry, 1867-1922"); Years.Str (text "Unknown")] = false
  /\ Years.check_creators db [Years.Str (text "Franklin, Miles, 1879-1954")] = false
  /\ Years.check_creators db [Years.Str (text "Lawson, Henry, 1867-1922"); Years.NotStr]
     = false
  /\ Years.check_date db (Years.Str (text "1900-01-05")) = false
  /\ Years.check_date db (Years.Str (text "05/01/1900")) = true.
Proof. repeat split; vm_compute; reflexivity. Qed.

(** Digits of another script are read as Python reads them, and a letter
    with an accent before the digits is a letter: for a creator that ends
    with 1867, an en dash (U+2013) and 1922 in Arabic-Indic digits the
    year is found and is 1922; [ne1922] with an acute accent on the [e]
    (U+00E9) has no year at its end; a newline after the year is
    allowed. *)
Example get_latest_year_other_scripts :
  let text := Unicode.of_ascii in
  let db := Unicode.excerpt in
  Years.get_latest_year db
    (Years.Str (text "Lawson, Henry, 1867" ++ [8211; 1633; 1641; 1634; 1634]%N))
  = Some [1633; 1641; 1634; 1634]%N
  /\ Years.int_of_digits db [1633; 1641; 1634; 1634]%N = Some 1922
  /\ Years.check_creators db
       [Years.Str (text "Lawson, Henry, 1867" ++ [8211; 1633; 1641; 1634; 1634]%N)]
     = true
  /\ Years.get_latest_year db (Years.Str (text "n" ++ [233%N] ++ text "1922")) = None
  /\ Years.get_latest_year db (Years.Str (text "born 1922" ++ [Unicode.nl]))
     = Some (text "1922").
Proof. repeat split; vm_compute; reflexivity. Qed.

(** ** The identifier taken from the url *)

Lemma match_here_chars l rest : forall prev s m,
  Pattern.match_here db (map (fun c => Pattern.Class (N.eqb c)) l ++ rest) prev s = Some m
  <-> exists post m',
        s = l ++ post /\ m = l ++ m'
        /\ Pattern.match_here db rest (Pattern.last_of prev l) post = Some m'.
Proof.
  induction l as [|c r IH]; intros prev s m; cbn [map app Pattern.last_of].
  - split; [intros H; now exists s, m | now intros (post & m' & -> & -> & H)].
  - cbn [Pattern.match_here]. destruct s as [|c' s'].
    + split; [discriminate | intros (post & m' & H & _); discriminate].
    + destruct (N.eqb c c') eqn:E.
      * apply N.eqb_eq in E. subst c'. split.
        -- destruct (Pattern.match_here db _ (Some c) s') as [m0|] eqn:E0; [|discriminate].
           cbn. intros [= <-]. apply IH in E0 as (post & m' & -> & -> & H).
           now exists post, m'.
        -- intros (post & m' & Hs & -> & H). injection Hs as ->.
           rewrite (proj2 (IH (Some c) (r ++ post) (r ++ m'))); [reflexivity|].
           now exists post, m'.
      * split; [discriminate|]. intros (post & m' & Hs & _). injection Hs as -> _.
        rewrite N.eqb_refl in E. discriminate.
Qed.

Lemma match_here_plus p prev s :
  Pattern.match_here db [Pattern.Plus p] prev s
  = match s with
    | c :: r => if p c then Some (c :: FaId.take_while p r) else None
    | [] => None
    end.
Proof.
  cbn [Pattern.match_here].
  induction s as [|c r IH]; [reflexivity|].
  destruct (p c) eqn:Pc; [|reflexivity].
  rewrite IH. destruct r as [|c' r']; [reflexivity|].
  cbn [FaId.take_while]. now destruct (p c').
Qed.

Lemma take_while_spec p s :
  exists post,
    s = FaId.take_while p s ++ post
    /\ forallb p (FaId.take_while p s) = true
    /\ forall d, head post = Some d -> p d = false.
Proof.
  induction s as [|c r (post & Hs & Ha & Hd)]; cbn [FaId.take_while].
  - exists []. split; [reflexivity|]. split; [reflexivity | discriminate].
  - destruct (p c) eqn:Pc.
    + exists post. cbn [app forallb]. rewrite <- Hs, Pc, Ha. now split.
    + exists (c :: r). split; [reflexivity|]. split; [reflexivity|].
      now intros d [= <-].
Qed.

Lemma take_while_all p ds post :
  forallb p ds = true -> (forall d, head post = Some d -> p d = false) ->
  FaId.take_while p (ds ++ post) = ds.
Proof.
  intros Ha Hd. induction ds as [|c r IH].
  - cbn [app]. destruct post as [|d post]; [reflexivity|].
    cbn [FaId.take_while]. now rewrite (Hd d eq_refl).
  - cbn [app FaId.take_while forallb] in *.
    apply andb_true_iff in Ha as [Hc Hr]. now rewrite Hc, IH.
Qed.

Lemma match_here_fa_id prev s i :
  Pattern.match_here db (FaId.fa_id_re db) prev s = Some i
  <-> exists c ds post,
        s = i ++ post
        /\ i = Unicode.of_ascii "nla" ++ c :: Unicode.of_ascii "obj-" ++ ds
        /\ Pattern.any c = true /\ ds <> []
        /\ forallb (Pattern.digit db) ds = true
        /\ (forall d, head post = Some d -> Pattern.digit db d = false).
Proof.
  unfold FaId.fa_id_re, Pattern.literal. split.
  - intros H. apply match_here_chars in H as (s1 & m1 & -> & -> & H).
    cbn [app Pattern.match_here] in H. destruct s1 as [|c s2]; [discriminate|].
    destruct (Pattern.any c) eqn:Hc; [|discriminate].
    destruct (Pattern.match_here db _ (Some c) s2) as [m2|] eqn:E2; [|discriminate].
    injection H as <-.
    apply match_here_chars in E2 as (s3 & m3 & -> & -> & H3).
    rewrite match_here_plus in H3. destruct s3 as [|d s4]; [discriminate|].
    destruct (Pattern.digit db d) eqn:Hd; [|discriminate]. injection H3 as <-.
    destruct (take_while_spec (Pattern.digit db) s4) as (post & Hs & Ha & Hp).
    exists c, (d :: FaId.take_while (Pattern.digit db) s4), post.
    split; [|split; [reflexivity|split; [exact Hc|split; [discriminate|split]]]].
    + rewrite Hs at 1. now rewrite <- !app_assoc.
    + cbn [forallb]. now rewrite Hd, Ha.
    + exact Hp.
  - intros (c & ds & post & -> & -> & Hc & Hne & Ha & Hp).
    apply match_here_chars.
    exists (c :: Unicode.of_ascii "obj-" ++ ds ++ post), (c :: Unicode.of_ascii "obj-" ++ ds).
    split; [now rewrite <- !app_assoc|]. split; [reflexivity|].
    cbn [app Pattern.match_here]. rewrite Hc.
    rewrite (proj2 (match_here_chars (Unicode.of_ascii "obj-") _ (Some c)
                      (Unicode.of_ascii "obj-" ++ ds ++ post)
                      (Unicode.of_ascii "obj-" ++ ds))); [reflexivity|].
    exists (ds ++ post), ds. split; [reflexivity|]. split; [reflexivity|].
    rewrite match_here_plus. destruct ds as [|d ds]; [now destruct Hne|].
    cbn [app forallb] in *. apply andb_true_iff in Ha as [Hd Ha]. rewrite Hd.
    now rewrite (take_while_all _ _ _ Ha Hp).
Qed.

(** The identifier that names the files: [fa_id] returns an identifier
    that occurs in the url, made of [nla], one character that is no
    newline, [obj-] and all the decimal digits that follow; it raises
    [AttributeError] exactly when the url has no such identifier at any
    place. *)
Theorem fa_id_in_url url :
  (forall i, FaId.fa_id db url = Returns i -> exists pre, FaId.id_at db url pre i)
  /\ (FaId.fa_id db url = Raises AttributeError
      <-> forall pre i, ~ FaId.id_at db url pre i).
Proof.
  unfold FaId.fa_id, Pattern.search. split.
  - intros i.
    destruct (Pattern.search_from db (FaId.fa_id_re db) None url) as [m|] eqn:E;
      [|discriminate].
    intros [= <-]. apply search_from_sound in E as (pre & suf & -> & Hm).
    apply match_here_fa_id in Hm as (c & ds & post & -> & Hi & H).
    exists pre, c, ds, post. split; [reflexivity | now split].
  - destruct (Pattern.search_from db (FaId.fa_id_re db) None url) as [m|] eqn:E.
    + split; [discriminate|]. intros Hno. exfalso.
      apply search_from_sound in E as (pre & suf & -> & Hm).
      apply match_here_fa_id in Hm as (c & ds & post & -> & Hi & H).
      apply (Hno pre m). exists c, ds, post. split; [reflexivity | now split].
    + split; [|reflexivity]. intros _ pre i (c & ds & post & Hu & Hi & H).
      assert (Hm : Pattern.match_here db (FaId.fa_id_re db) (Pattern.last_of None pre)
                     (i ++ post) = Some i).
      { apply match_here_fa_id. exists c, ds, post. split; [reflexivity | now split]. }
      destruct (search_from_complete _ pre None _ _ Hm) as [m' Hm'].
      rewrite <- Hu, E in Hm'. discriminate.
Qed.

(** The dot stands for any character, a middle dot (U+00B7) among them. *)
Example fa_id_examples :
  let text := Unicode.of_ascii in
  let db := Unicode.excerpt in
  FaId.fa_id db (text "http://nla.gov.au/nla.obj-225220821/findingaid")
  = Returns (text "nla.obj-225220821")
  /\ FaId.fa_id db (text "http://nla.gov.au/nla-obj-12/findingaid")
     = Returns (text "nla-obj-12")
  /\ FaId.fa_id db (text "nla" ++ [183%N] ++ text "obj-123")
     = Returns (text "nla" ++ [183%N] ++ text "obj-123")
  /\ FaId.fa_id db (text "http://nla.gov.au/findingaid") = Raises AttributeError.
Proof. repeat split; vm_compute; reflexivity. Qed.

(** ** The records that are kept *)

Lemma year_at_end_length s y : Years.year_at_end db s y -> 4 <= length s.
Proof.
  intros (pre & Hs & Hl & _). destruct Hs as [->| ->]; rewrite !length_app; lia.
Qed.

(** A date that ends with a year is not empty and not the number 0. *)
Lemma dated_truthy i :
  Years.ends_before_1949 db (Years.Str (Works.str i)) -> Works.truthy i = true.
Proof.
  intros (s & y & n & [= <-] & Hy & _). apply year_at_end_length in Hy.
  destruct i as [[|c r]|[|n']]; try reflexivity; simpl in Hy; lia.
Qed.

Lemma opening_qualifies {J} (record : Works.work J) :
  Works.opening db record = true <-> Works.qualifies db record.
Proof.
  unfold Works.opening, Works.qualifies.
  assert (D : match Works.issued record with
              | Some i =>
                  if Works.truthy i
                  then Years.check_date db (Years.Str (Works.str i))
                  else false
              | None => false
              end = true
              <-> exists i, Works.issued record = Some i
                            /\ Years.ends_before_1949 db (Years.Str (Works.str i))).
  { split.
    - destruct (Works.issued record) as [i|]; [|discriminate].
      destruct (Works.truthy i); [|discriminate].
      intros H. exists i. split; [reflexivity|]. now apply before_1949_iff.
    - intros (i & -> & H). rewrite (dated_truthy i H). now apply before_1949_iff. }
  destruct (Works.contributor record) as [[|c cs]|].
  - rewrite D. split; [intros H; right; split; [now right | exact H]|].
    intros [(c & cs & [=] & _)|[_ H]]. exact H.
  - rewrite check_creators_helper. split.
    + intros H. left. now exists c, cs.
    + intros [(c' & cs' & [= <- <-] & H)|[[[=]|[=]] _]]. exact H.
  - rewrite D. split; [intros H; right; split; [now left | exact H]|].
    intros [(c & cs & [=] & _)|[_ H]]. exact H.
Qed.

(** What the body of the loop does with a record that passes the tests *)
Lemma harvest_work_opening {J} (record : Works.work J) items :
  Works.opening db record = true ->
  Works.harvest_work db record items
  = match Works.holding record with
    | Some [] => Raises IndexError
    | holdings =>
        match Works.work_id record, Works.work_title record, Works.troveUrl record with
        | None, _, _ => Raises (KeyError "id")
        | Some _, None, _ => Raises (KeyError "title")
        | Some _, Some _, None => Raises (KeyError "troveUrl")
        | Some i, Some t, Some u =>
            Returns (items ++ [Works.mkItem i t
                                 (Works.join_creators (Works.contributor record))
                                 (Works.issued record) u
                                 match holdings with
                                 | Some (first :: _) => first
                                 | _ => None
                                 end])
        end
    end.
Proof.
  intros O. unfold Works.harvest_work, Works.holding_nuc. rewrite O.
  destruct (Works.holding record) as [[|[v|] hs]|];
    destruct (Works.work_id record), (Works.work_title record), (Works.troveUrl record);
    reflexivity.
Qed.

Lemma names_of_strings creators :
  List.Forall (Years.ends_before_1949 db) creators ->
  exists ss, Works.names creators = Some ss /\ creators = map Years.Str ss.
Proof.
  induction 1 as [|v l (s & y & n & -> & _) _ (ss & Hn & ->)].
  - now exists [].
  - exists (s :: ss). cbn [Works.names map]. now rewrite Hn.
Qed.

Lemma snoc_not_same {A} (l : list A) x : l ++ [x] <> l.
Proof.
  intros H. apply (f_equal (@length A)) in H. rewrite length_app in H. simpl in H. lia.
Qed.

(** A record that passes the tests is added, if it is complete, or makes
    the harvest raise. *)
Lemma harvest_work_qualifying {J} (record : Works.work J) items :
  Works.opening db record = true ->
  (Works.complete record
   /\ exists it, Works.harvest_work db record items = Returns (items ++ [it])
                 /\ Works.date it = Works.issued record
                 /\ Works.creator it = Works.join_creators (Works.contributor record))
  \/ (~ Works.complete record
      /\ exists e, Works.harvest_work db record items = Raises e
                   /\ ((e = IndexError /\ Works.holding record = Some [])
                       \/ (e = KeyError "id" /\ Works.work_id record = None)
                       \/ (e = KeyError "title" /\ Works.work_title record = None)
                       \/ (e = KeyError "troveUrl" /\ Works.troveUrl record = None))).
Proof.
  intros O. rewrite (harvest_work_opening record items O). unfold Works.complete.
  destruct (Works.holding record) as [[|first hs]|].
  - right. split; [intros [H _]; now apply H|]. eexists. split; [reflexivity|]. now left.
  - destruct (Works.work_id record) as [i|].
    2:{ right. split; [intros (_ & [? H] & _); discriminate|].
        eexists. split; [reflexivity|]. right. now left. }
    destruct (Works.work_title record) as [t|].
    2:{ right. split; [intros (_ & _ & [? H] & _); discriminate|].
        eexists. split; [reflexivity|]. right. right. now left. }
    destruct (Works.troveUrl record) as [u|].
    2:{ right. split; [intros (_ & _ & _ & [? H]); discriminate|].
        eexists. split; [reflexivity|]. right. right. now right. }
    left. split; [repeat split; try discriminate; now eexists|].
    eexists. split; [reflexivity|]. now split.
  - destruct (Works.work_id record) as [i|].
    2:{ right. split; [intros (_ & [? H] & _); discriminate|].
        eexists. split; [reflexivity|]. right. now left. }
    destruct (Works.work_title record) as [t|].
    2:{ right. split; [intros (_ & _ & [? H] & _); discriminate|].
        eexists. split; [reflexivity|]. right. right. now left. }
    destruct (Works.troveUrl record) as [u|].
    2:{ right. split; [intros (_ & _ & _ & [? H]); discriminate|].
        eexists. split; [reflexivity|]. right. right. now right. }
    left. split; [repeat split; try discriminate; now eexists|].
    eexists. split; [reflexivity|]. now split.
Qed.

(** The creator of the item of a record that passes the tests *)
Lemma join_creators_qualifying {J} (record : Works.work J) :
  Works.qualifies db record ->
  match Works.contributor record with
  | Some creators =>
      exists ss, creators = map Years.Str ss
                 /\ Works.join_creators (Works.contributor record)
                    = Works.Joined (Works.join (Unicode.of_ascii " | ") ss)
  | None => Works.join_creators (Works.contributor record) = Works.AsGiven None
  end.
Proof.
  intros [(c & cs & Hc & Hall)|[[Hc|Hc] _]]; rewrite Hc; unfold Works.join_creators.
  - destruct (names_of_strings _ Hall) as (ss & Hn & Hss). rewrite Hn. now exists ss.
  - reflexivity.
  - now exists [].
Qed.

(** What the harvest of unpublished works does with a record.  The
    record is passed over exactly when it does not qualify: it has
    creators and one of them does not end with a year before 1949, or it
    has none and its date does not end with such a year (with creators
    the date is not looked at).  A record that qualifies is added as one
    item when it has the fields [id], [title] and [troveUrl] and its list
    of holdings, if it has one, is not empty; otherwise the harvest
    raises, [IndexError] for the empty list and [KeyError] for a missing
    field.  The item has the date as it is in the record, and as creator
    the names joined by [ | ]; the names are left as they are only for a
    record without the field [contributor]. *)
Theorem harvest_work_keeps_qualifying_records {J} (record : Works.work J) items :
  (Works.harvest_work db record items = Returns items
   <-> ~ Works.qualifies db record)
  /\ ((exists it, Works.harvest_work db record items = Returns (items ++ [it]))
      <-> Works.qualifies db record /\ Works.complete record)
  /\ ((exists e, Works.harvest_work db record items = Raises e)
      <-> Works.qualifies db record /\ ~ Works.complete record)
  /\ (forall e, Works.harvest_work db record items = Raises e ->
        (e = IndexError /\ Works.holding record = Some [])
        \/ (e = KeyError "id" /\ Works.work_id record = None)
        \/ (e = KeyError "title" /\ Works.work_title record = None)
        \/ (e = KeyError "troveUrl" /\ Works.troveUrl record = None))
  /\ (forall it, Works.harvest_work db record items = Returns (items ++ [it]) ->
        Works.date it = Works.issued record
        /\ match Works.contributor record with
           | Some creators =>
               exists ss, creators = map Years.Str ss
                          /\ Works.creator it
                             = Works.Joined (Works.join (Unicode.of_ascii " | ") ss)
           | None => Works.creator it = Works.AsGiven None
           end).
Proof.
  destruct (Works.opening db record) eqn:O.
  - pose proof (proj1 (opening_qualifies record) O) as Q.
    destruct (harvest_work_qualifying record items O)
      as [[C (it0 & H & Hd & Hc)]|[NC (e0 & H & He)]]; rewrite H.
    + split; [split; [intros [= H']; now apply snoc_not_same in H' | tauto]|].
      split; [split; [tauto | intros _; now exists it0]|].
      split; [split; [intros [e [=]] | tauto]|].
      split; [discriminate|].
      intros it [= H']. apply app_inj_tail in H' as [_ <-].
      split; [exact Hd|]. rewrite Hc. now apply join_creators_qualifying.
    + split; [split; [discriminate | tauto]|].
      split; [split; [intros [it [=]] | tauto]|].
      split; [split; [tauto | intros _; now exists e0]|].
      split; [now intros e [= <-]|].
      intros it [=].
  - assert (Q : ~ Works.qualifies db record).
    { intros Q. apply opening_qualifies in Q. rewrite Q in O. discriminate. }
    unfold Works.harvest_work. rewrite O.
    split; [tauto|].
    split; [split; [intros [it [= H]]; symmetry in H; now apply snoc_not_same in H
                   | tauto]|].
    split; [split; [intros [e [=]] | tauto]|].
    split; [discriminate|].
    intros it [= H]. symmetry in H. now apply snoc_not_same in H.
Qed.

Example harvest_work_examples :
  let text := Unicode.of_ascii in
  let db := Unicode.excerpt in
  let lawson := Years.Str (text "Lawson, Henry, 1867-1922") in
  let franklin := Years.Str (text "Franklin, Miles, 1879-1954") in
  let work creators issued holdings :=
    Works.mkWork creators issued holdings (Some 1) (Some 2) (Some 3) in
  Works.harvest_work db (work (Some [lawson]) None (Some [Some 4])) []
  = Returns [Works.mkItem 1 2 (Works.Joined (text "Lawson, Henry, 1867-1922")) None 3
               (Some 4)]
  /\ Works.harvest_work db
       (work (Some [lawson; franklin]) (Some (Works.IssuedInt 1901)) None) []
     = Returns []
  /\ Works.harvest_work db (work None (Some (Works.IssuedInt 1901)) None) []
     = Returns [Works.mkItem 1 2 (Works.AsGiven None) (Some (Works.IssuedInt 1901)) 3 None]
  /\ Works.harvest_work db
       (work (Some []) (Some (Works.IssuedStr (text "1890-1901"))) (Some [None])) []
     = Returns [Works.mkItem 1 2 (Works.Joined [])
                  (Some (Works.IssuedStr (text "1890-1901"))) 3 None]
  /\ Works.harvest_work db (work (Some [lawson]) None (Some [])) [] = Raises IndexError
  /\ Works.harvest_work db
       (Works.mkWork (Some [lawson]) None None (Some 1) None (Some 3)) []
     = Raises (KeyError "title").
Proof. repeat split; vm_compute; reflexivity. Qed.

End Code_points.
